(** * Douyin resolver plugin (dist/index.js): a shallow embedding

    The plugin resolves a Douyin link through third-party resolution
    services and packages the outcome as a download manifest.  This file
    embeds the enhanced entry point of [dist/index.js] (the second module of
    the bundle: [identifyLinkType], [resolveRedirect], the three source
    adapters, [parseWithFallback], the content-type routers,
    [buildDownloadFiles], [sanitizeFilename] and the default export) and
    proves properties of it.

    Modelling choices:
    - a JavaScript string is the list of its UTF-16 code units;
    - JSON data and object fields are values of [jsval]; an absent field is
      [JUndef];
    - the network, the clock and the engine's own error messages are an
      oracle ([World]); the code runs in a state-and-exception monad whose
      state records every fetch and every adapter invocation;
    - [console.*] calls and timer bookkeeping have no effect on results and
      are left out. *)

From Stdlib Require Import List ZArith NArith Lia Bool String Ascii.
From Stdlib Require Import DecimalString.
From Stdlib Require DecimalFacts DecimalPos DecimalZ.
Import ListNotations.

Set Implicit Arguments.
Set Warnings "-register-all".
Local Open Scope N_scope.

(** ** JavaScript strings *)

Module JsString.

(** A UTF-16 code unit. *)
Definition char := N.
Definition jstring := list char.

Definition bytes_of (s : string) : list N :=
  map (fun a => N_of_ascii a) (list_ascii_of_string s).

(** Source literals are written in UTF-8; [utf16] decodes them to code
    units (a code point above the BMP becomes a surrogate pair). *)
Fixpoint utf16 (bs : list N) : jstring :=
  match bs with
  | [] => []
  | b0 :: r0 =>
      if b0 <? 128 then b0 :: utf16 r0
      else if b0 <? 224 then
        match r0 with
        | b1 :: r1 => ((b0 mod 32) * 64 + b1 mod 64) :: utf16 r1
        | [] => []
        end
      else if b0 <? 240 then
        match r0 with
        | b1 :: b2 :: r2 =>
            ((b0 mod 16) * 4096 + (b1 mod 64) * 64 + b2 mod 64) :: utf16 r2
        | _ => []
        end
      else
        match r0 with
        | b1 :: b2 :: b3 :: r3 =>
            let cp := (b0 mod 8) * 262144 + (b1 mod 64) * 4096
                      + (b2 mod 64) * 64 + b3 mod 64 in
            let v := cp - 65536 in
            (55296 + v / 1024) :: (56320 + v mod 1024) :: utf16 r3
        | _ => []
        end
  end.

Definition lit (s : string) : jstring := utf16 (bytes_of s).

Definition eqb (a b : jstring) : bool :=
  if list_eq_dec N.eq_dec a b then true else false.

(** [s.startsWith(p)] *)
Fixpoint starts_with (p s : jstring) : bool :=
  match p, s with
  | [], _ => true
  | _ :: _, [] => false
  | a :: p', b :: s' => (a =? b) && starts_with p' s'
  end.

(** [s.includes(p)] *)
Fixpoint includes (s p : jstring) : bool :=
  starts_with p s ||
  match s with
  | [] => false
  | _ :: s' => includes s' p
  end.

(** Decimal rendering of an integer-valued Number, as a template literal
    interpolates it. *)
Definition of_Z (z : Z) : jstring :=
  lit (NilZero.string_of_int (Z.to_int z)).

(** The class [\w] (no [u] or [i] flag): [A-Za-z0-9_]. *)
Definition is_word (c : char) : bool :=
  ((65 <=? c) && (c <=? 90)) || ((97 <=? c) && (c <=? 122))
  || ((48 <=? c) && (c <=? 57)) || (c =? 95).

(** The class [\s], which is also what [trim] strips: WhiteSpace and
    LineTerminator of ECMAScript. *)
Definition is_space (c : char) : bool :=
  ((9 <=? c) && (c <=? 13)) || (c =? 32) || (c =? 160) || (c =? 5760)
  || ((8192 <=? c) && (c <=? 8202)) || (c =? 8232) || (c =? 8233)
  || (c =? 8239) || (c =? 8287) || (c =? 12288) || (c =? 65279).

Fixpoint drop_space (s : jstring) : jstring :=
  match s with
  | [] => []
  | c :: r => if is_space c then drop_space r else s
  end.

(** [s.trim()] *)
Definition trim (s : jstring) : jstring :=
  rev (drop_space (rev (drop_space s))).

(** [s.substring(0, n)] *)
Definition substring0 (n : nat) (s : jstring) : jstring := firstn n s.

End JsString.
Import JsString.

(** ** Regular expressions of the source

    The patterns of [identifyLinkType] are sequences of literal characters
    and one-or-more repetitions of a character class.  [test]
    searches for a match at every position, as an unanchored
    [RegExp.prototype.test] does. *)

Module Regex.

Inductive item :=
| Chr (c : char)
| Plus (p : char -> bool).

Definition regex := list item.

Fixpoint match_here (re : regex) (s : jstring) {struct re} : bool :=
  match re with
  | [] => true
  | Chr c :: re' =>
      match s with
      | d :: s' => (c =? d) && match_here re' s'
      | [] => false
      end
  | Plus p :: re' =>
      (fix more (s : jstring) : bool :=
         match s with
         | d :: s' => p d && (match_here re' s' || more s')
         | [] => false
         end) s
  end.

Fixpoint test (re : regex) (s : jstring) : bool :=
  match_here re s ||
  match s with
  | [] => false
  | _ :: s' => test re s'
  end.

Definition chars (s : string) : regex := map Chr (lit s).

End Regex.
Import Regex.

(** ** [sanitizeFilename] *)

Definition underscore : char := 95.
Definition space : char := 32.

(** The class of the first replacement: less-than, greater-than, colon,
    double quote, slash, backslash, bar, question mark and star. *)
Definition is_illegal (c : char) : bool :=
  (c =? 60) || (c =? 62) || (c =? 58) || (c =? 34) || (c =? 47)
  || (c =? 92) || (c =? 124) || (c =? 63) || (c =? 42).

(** The first [replace]: every character of the class becomes an
    underscore. *)
Definition replace_illegal (s : jstring) : jstring :=
  map (fun c => if is_illegal c then underscore else c) s.

(** [.replace(/\s+/g, ' ')]: every maximal run of whitespace becomes one
    space.  [in_run] tells that the previous character was whitespace. *)
Fixpoint collapse_from (in_run : bool) (s : jstring) : jstring :=
  match s with
  | [] => []
  | c :: r =>
      if is_space c
      then (if in_run then collapse_from true r
            else space :: collapse_from true r)
      else c :: collapse_from false r
  end.

Definition collapse_space (s : jstring) : jstring := collapse_from false s.

Definition sanitizeFilename (filename : jstring) : jstring :=
  substring0 200 (trim (collapse_space (replace_illegal filename))).

(** ** JavaScript values *)

Inductive jsval :=
| JUndef
| JNull
| JBool (b : bool)
| JNum (z : Z)
| JStr (s : jstring)
| JArr (elems : list jsval)
| JObj (fields : list (jstring * jsval)).

(** Numbers are integer-valued here: the code only tests numbers for
    truthiness and compares [data.code] with 200. *)
Definition truthy (v : jsval) : bool :=
  match v with
  | JUndef | JNull => false
  | JBool b => b
  | JNum z => negb (z =? 0)%Z
  | JStr s => match s with [] => false | _ :: _ => true end
  | JArr _ | JObj _ => true
  end.

(** [a || b] *)
Definition js_or (a b : jsval) : jsval := if truthy a then a else b.
Infix "|||" := js_or (at level 50, left associativity).

(** The own property [k] of an object given by the list of its properties
    (a parsed JSON object has each name once). *)
Fixpoint lookup (k : jstring) (fields : list (jstring * jsval)) : jsval :=
  match fields with
  | [] => JUndef
  | (k', v) :: rest => if JsString.eqb k k' then v else lookup k rest
  end.

(** [v.k] for a value that is neither [null] nor [undefined]; none of the
    names the source reads is a property of a primitive or of an array. *)
Definition prop (v : jsval) (k : string) : jsval :=
  match v with
  | JObj fields => lookup (lit k) fields
  | _ => JUndef
  end.

(** [v?.k] *)
Definition opt_prop (v : jsval) (k : string) : jsval :=
  match v with
  | JUndef | JNull => JUndef
  | _ => prop v k
  end.

Definition isArray (v : jsval) : bool :=
  match v with JArr _ => true | _ => false end.

(** [v === s] for a string literal [s] *)
Definition str_is (v : jsval) (s : string) : bool :=
  match v with JStr t => JsString.eqb t (lit s) | _ => false end.

(** ** [encodeURIComponent] *)

Module Uri.

Definition in_range (lo hi c : N) : bool := (lo <=? c) && (c <=? hi).

(** Code points of a UTF-16 string; [None] on an unpaired surrogate. *)
Fixpoint code_points (s : jstring) : option (list N) :=
  match s with
  | [] => Some []
  | c :: r =>
      if in_range 55296 56319 c then
        match r with
        | d :: r' =>
            if in_range 56320 57343 d then
              option_map (cons (65536 + (c - 55296) * 1024 + (d - 56320)))
                         (code_points r')
            else None
        | [] => None
        end
      else if in_range 56320 57343 c then None
      else option_map (cons c) (code_points r)
  end.

Definition utf8 (cp : N) : list N :=
  if cp <? 128 then [cp]
  else if cp <? 2048 then [192 + cp / 64; 128 + cp mod 64]
  else if cp <? 65536 then
    [224 + cp / 4096; 128 + (cp / 64) mod 64; 128 + cp mod 64]
  else
    [240 + cp / 262144; 128 + (cp / 4096) mod 64;
     128 + (cp / 64) mod 64; 128 + cp mod 64].

Definition hex_digit (d : N) : char := if d <? 10 then 48 + d else 55 + d.

Definition percent (b : N) : jstring :=
  [37; hex_digit (b / 16); hex_digit (b mod 16)].

(** [A-Za-z0-9] and [- _ . ! ~ * ' ( )] are left as they are. *)
Definition unreserved (c : N) : bool :=
  in_range 65 90 c || in_range 97 122 c || in_range 48 57 c
  || existsb (N.eqb c) [45; 95; 46; 33; 126; 42; 39; 40; 41].

Definition encode_point (cp : N) : jstring :=
  if unreserved cp then [cp] else flat_map percent (utf8 cp).

Definition encodeURIComponent (s : jstring) : option jstring :=
  option_map (flat_map encode_point) (code_points s).

End Uri.

(** ** The environment and the effect monad *)

(** A thrown value; the source only ever reads its [message]. *)
Record js_error := Error { message : jstring }.

Definition headers := list (string * string).

Record Request := {
  method : string;
  req_url : jstring;
  req_headers : headers
}.

(** A settled [fetch]: [response.ok], [response.status], [response.url]
    (the final URL after redirects) and what [response.json()] settles
    to. *)
Record Response := {
  ok : bool;
  status : Z;
  response_url : jstring;
  json : js_error + jsval
}.

Inductive Adapter := DouyinWTF | JiexiTop | TenAPI.

Inductive Event :=
| Fetched (r : Request)
| Invoked (a : Adapter).

(** Errors the engine raises by itself. *)
Inductive Fault :=
| NullAccess (k : string)
| NotAFunction (k : string)
| MalformedURI.

(** The outside world: the network (which may answer by what happened
    before; a rejection covers network errors and the abort at timeout),
    the successive values of [Date.now()], and the engine's errors. *)
Record World := {
  net : list Event -> Request -> js_error + Response;
  clock : nat -> Z;
  fault : Fault -> js_error
}.

Record State := {
  trace : list Event;
  ticks : nat
}.

Definition init : State := {| trace := []; ticks := 0 |}.

Inductive outcome (A : Type) :=
| Ok (a : A)
| Throw (e : js_error).
Arguments Ok {A} a.
Arguments Throw {A} e.

Definition M (A : Type) := State -> outcome A * State.

Definition ret {A} (a : A) : M A := fun st => (Ok a, st).

Definition throw {A} (e : js_error) : M A := fun st => (Throw e, st).

Definition bind {A B} (m : M A) (k : A -> M B) : M B :=
  fun st =>
    match m st with
    | (Ok a, st') => k a st'
    | (Throw e, st') => (Throw e, st')
    end.

(** [try { m } catch (error) { h error }] *)
Definition try_catch {A} (m : M A) (h : js_error -> M A) : M A :=
  fun st =>
    match m st with
    | (Ok a, st') => (Ok a, st')
    | (Throw e, st') => h e st'
    end.

Notation "x <- m ;; k" := (bind m (fun x => k))
  (at level 61, m at next level, right associativity).
Notation "m ;;; k" := (bind m (fun _ => k))
  (at level 61, right associativity).

Definition record (e : Event) : M unit :=
  fun st => (Ok tt, {| trace := trace st ++ [e]; ticks := ticks st |}).

Section Pipeline.

Variable w : World.

(** [Date.now()] *)
Definition now : M Z :=
  fun st => (Ok (clock w (ticks st)),
             {| trace := trace st; ticks := S (ticks st) |}).

(** [await fetch(url, options)] *)
Definition fetch (r : Request) : M Response :=
  fun st =>
    let st' := {| trace := trace st ++ [Fetched r]; ticks := ticks st |} in
    match net w (trace st) r with
    | inl e => (Throw e, st')
    | inr resp => (Ok resp, st')
    end.

(** [await response.json()] *)
Definition read_json (resp : Response) : M jsval :=
  match json resp with
  | inl e => throw e
  | inr v => ret v
  end.

(** Reading property [k] of [v] throws when [v] is [null] or
    [undefined]. *)
Definition deref (v : jsval) (k : string) : M unit :=
  match v with
  | JUndef | JNull => throw (fault w (NullAccess k))
  | _ => ret tt
  end.

Definition encodeURIComponent (s : jstring) : M jstring :=
  match Uri.encodeURIComponent s with
  | Some e => ret e
  | None => throw (fault w MalformedURI)
  end.

(** ** Data of the pipeline *)

Inductive LinkType :=
| short | video | note | user | discover | share | ies | unknown.

(** The object an adapter returns, with the fields the routers add
    ([type], [multipleFiles]) and the one the builder reads without anyone
    setting it ([size]). *)
Record ParseResult := {
  title : jsval;
  downloadUrl : jsval;
  images : jsval;
  cover : jsval;
  author : jsval;
  duration : jsval;
  filename : jsval;
  type : jsval;
  multipleFiles : jsval;
  size : jsval
}.

Record File := {
  file_name : jstring;
  file_size : jsval;
  file_url : jsval;
  file_headers : headers
}.

Record Extra := {
  extra_cover : jsval;
  extra_author : jsval;
  extra_duration : jsval;
  platform : jstring;
  extra_type : jsval
}.

Record Manifest := {
  name : jsval;
  files : list File;
  extra : Extra
}.

Record Settings := {
  apiEndpoint : jsval;
  timeout : jsval;
  downloadType : jsval
}.

(** The host's context: [ctx.req.url] and the optional [ctx.settings]. *)
Record Ctx := {
  ctx_url : jstring;
  settings : option Settings
}.

(** [settings?.f] *)
Definition setting (f : Settings -> jsval) (ctx : Ctx) : jsval :=
  match settings ctx with
  | Some s => f s
  | None => JUndef
  end.

(** ** [identifyLinkType] *)

Definition is_word_or_dash (c : char) : bool := is_word c || (c =? 45).

(** The entries of [patterns], in insertion order. *)
Definition patterns : list (LinkType * regex) :=
  [ (short, chars "v.douyin.com/" ++ [Plus is_word]);
    (video, chars "douyin.com/video/" ++ [Plus is_word]);
    (note, chars "douyin.com/note/" ++ [Plus is_word]);
    (user, chars "douyin.com/user/" ++ [Plus is_word_or_dash]);
    (discover, chars "douyin.com/discover");
    (share, chars "douyin.com/share/" ++ [Plus is_word]);
    (ies, chars "iesdouyin.com") ].

(** The [for ... of Object.entries(patterns)] loop. *)
Fixpoint scan (entries : list (LinkType * regex)) (url : jstring) : LinkType :=
  match entries with
  | [] => unknown
  | (type, pattern) :: rest =>
      if test pattern url then type else scan rest url
  end.

Definition identifyLinkType (url : jstring) : LinkType := scan patterns url.

(** ** Request headers *)

Definition mobile_agent : string :=
  "Mozilla/5.0 (iPhone; CPU iPhone OS 15_0 like Mac OS X) AppleWebKit/605.1.15 (KHTML, like Gecko) Version/15.0 Mobile/15E148 Safari/604.1".

Definition getVideoHeaders : headers :=
  [ ("User-Agent", mobile_agent);
    ("Referer", "https://www.douyin.com/");
    ("Accept", "video/mp4,video/webm,video/*;q=0.9,*/*;q=0.8");
    ("Accept-Language", "zh-CN,zh;q=0.9,en;q=0.8");
    ("Range", "bytes=0-") ]%string.

Definition getImageHeaders : headers :=
  [ ("User-Agent", mobile_agent);
    ("Referer", "https://www.douyin.com/");
    ("Accept", "image/webp,image/apng,image/*,*/*;q=0.8") ]%string.

Definition api_headers : headers :=
  [ ("User-Agent", "Mozilla/5.0 (Windows NT 10.0; Win64; x64) AppleWebKit/537.36");
    ("Accept", "application/json") ]%string.

Definition api_request (endpoint : string) (encoded : jstring) : Request :=
  {| method := "GET"; req_url := lit endpoint ++ encoded;
     req_headers := api_headers |}.

Definition absent : jsval := JUndef.

(** ** The pipeline *)

(** *** [resolveRedirect] *)

Definition head_request (url : jstring) : Request :=
  {| method := "HEAD"; req_url := url;
     req_headers := [("User-Agent", mobile_agent)]%string |}.

Definition resolveRedirect (url : jstring) (timeout : jsval) : M jstring :=
  if negb (includes url (lit "v.douyin.com")) then ret url
  else
    try_catch
      (response <- fetch (head_request url) ;;
       ret (response_url response))
      (fun error => ret url).

(** *** Source adapters *)

Definition http_error (api : string) (response : Response) : js_error :=
  Error (lit api ++ lit " API HTTP " ++ of_Z (status response)).

Definition stamped (prefix : string) (t : Z) (suffix : string) : jsval :=
  JStr (lit prefix ++ of_Z t ++ lit suffix).

Definition parseWithDouyinWTF (url : jstring) (timeout : jsval)
  : M ParseResult :=
  record (Invoked DouyinWTF) ;;;
  encoded <- encodeURIComponent url ;;
  response <- fetch (api_request "https://api.douyin.wtf/api?url=" encoded) ;;
  if negb (ok response) then throw (http_error "douyin.wtf" response)
  else
    data <- read_json response ;;
    deref data "nwm_video_url" ;;;
    if truthy (prop data "nwm_video_url") then
      t <- now ;;
      ret {| title := prop data "desc" ||| JStr (lit "抖音视频");
             downloadUrl := prop data "nwm_video_url";
             images := absent;
             cover := prop data "cover_url";
             author := opt_prop (prop data "author") "nickname"
                       ||| prop data "nickname" ||| JStr [];
             duration := prop data "duration" ||| JNum 0;
             filename := stamped "douyin_" t ".mp4";
             type := absent; multipleFiles := absent; size := absent |}
    else if truthy (prop data "images") && isArray (prop data "images")
            && match prop data "images" with
               | JArr l => (0 <? List.length l)%nat
               | _ => false
               end
    then
      t <- now ;;
      ret {| title := prop data "desc" ||| JStr (lit "抖音图文");
             downloadUrl := absent;
             images := prop data "images";
             cover := absent;
             author := opt_prop (prop data "author") "nickname"
                       ||| prop data "nickname" ||| JStr [];
             duration := absent;
             filename := stamped "douyin_note_" t "";
             type := absent; multipleFiles := absent; size := absent |}
    else throw (Error (lit "douyin.wtf返回数据格式异常")).

Definition parseWithJiexiTop (url : jstring) (timeout : jsval)
  : M ParseResult :=
  record (Invoked JiexiTop) ;;;
  encoded <- encodeURIComponent url ;;
  response <- fetch (api_request "https://api.jiexi.top/?url=" encoded) ;;
  if negb (ok response) then throw (http_error "jiexi.top" response)
  else
    data <- read_json response ;;
    deref data "url" ;;;
    if truthy (prop data "url" ||| prop data "videoUrl") then
      t <- now ;;
      ret {| title := prop data "title" ||| prop data "desc"
                      ||| JStr (lit "抖音视频");
             downloadUrl := prop data "url" ||| prop data "videoUrl";
             images := absent;
             cover := prop data "cover" ||| prop data "coverUrl";
             author := prop data "author" ||| prop data "nickname"
                       ||| JStr [];
             duration := prop data "duration" ||| JNum 0;
             filename := stamped "douyin_" t ".mp4";
             type := absent; multipleFiles := absent; size := absent |}
    else throw (Error (lit "jiexi.top返回数据格式异常")).

Definition parseWithTenAPI (url : jstring) (timeout : jsval)
  : M ParseResult :=
  record (Invoked TenAPI) ;;;
  encoded <- encodeURIComponent url ;;
  response <- fetch (api_request "https://tenapi.cn/douyin/?url=" encoded) ;;
  if negb (ok response) then throw (http_error "tenapi.cn" response)
  else
    data <- read_json response ;;
    deref data "code" ;;;
    if match prop data "code" with JNum c => (c =? 200)%Z | _ => false end
       && truthy (prop data "url")
    then
      t <- now ;;
      ret {| title := prop data "title" ||| JStr (lit "抖音视频");
             downloadUrl := prop data "url";
             images := absent;
             cover := prop data "cover" ||| JStr [];
             author := prop data "author" ||| JStr [];
             duration := JNum 0;
             filename := stamped "douyin_" t ".mp4";
             type := absent; multipleFiles := absent; size := absent |}
    else throw (Error (lit "tenapi.cn返回数据格式异常")).

(** *** [parseWithFallback] *)

Definition Parser := jstring -> jsval -> M ParseResult.

(** The acceptance test of the loop; an adapter's result is an object,
    so [result &&] always passes. *)
Definition usable (result : ParseResult) : bool :=
  truthy (downloadUrl result ||| images result).

Definition all_failed : js_error := Error (lit "所有解析源都失败了").

(** The [for ... of parsers] loop: [None] stands for [continue]. *)
Fixpoint try_parsers (parsers : list Parser) (url : jstring)
         (timeout : jsval) : M ParseResult :=
  match parsers with
  | [] => throw all_failed
  | parser :: rest =>
      attempt <- try_catch
                   (result <- parser url timeout ;;
                    if usable result then ret (Some result) else ret None)
                   (fun error => ret None) ;;
      match attempt with
      | Some result => ret result
      | None => try_parsers rest url timeout
      end
  end.

Definition parsers : list Parser :=
  [ parseWithDouyinWTF; parseWithJiexiTop; parseWithTenAPI ].

Definition parseWithFallback (url : jstring) (timeout : jsval)
  : M ParseResult :=
  try_parsers parsers url timeout.

(** *** Content-type routers *)

Definition set_type (r : ParseResult) (t : string) : ParseResult :=
  {| title := title r; downloadUrl := downloadUrl r; images := images r;
     cover := cover r; author := author r; duration := duration r;
     filename := filename r; type := JStr (lit t);
     multipleFiles := multipleFiles r; size := size r |}.

Definition set_multipleFiles (r : ParseResult) : ParseResult :=
  {| title := title r; downloadUrl := downloadUrl r; images := images r;
     cover := cover r; author := author r; duration := duration r;
     filename := filename r; type := type r;
     multipleFiles := JBool true; size := size r |}.

Definition parseVideoLink (url : jstring) (timeout : jsval)
  : M ParseResult :=
  videoInfo <- parseWithFallback url timeout ;;
  ret (set_type videoInfo "video").

Definition parseNoteLink (url : jstring) (timeout : jsval)
  : M ParseResult :=
  noteInfo <- parseWithFallback url timeout ;;
  let noteInfo := set_type noteInfo "note" in
  if truthy (images noteInfo) && isArray (images noteInfo)
  then ret (set_multipleFiles noteInfo)
  else ret noteInfo.

Definition unsupported_user : js_error :=
  Error (lit "用户主页链接暂不支持批量下载，请提供具体视频链接").

Definition parseUserLink (url : jstring) (timeout : jsval)
  : M ParseResult :=
  throw unsupported_user.

(** *** [buildDownloadFiles] *)

(** [sanitizeFilename(v)]: [v.replace] is a function only on a string. *)
Definition sanitize (v : jsval) : M jstring :=
  match v with
  | JStr s => ret (sanitizeFilename s)
  | JUndef | JNull => throw (fault w (NullAccess "replace"))
  | _ => throw (fault w (NotAFunction "replace"))
  end.

Definition wants_video (downloadType : jsval) : bool :=
  str_is downloadType "video" || str_is downloadType "both".

Definition wants_cover (downloadType : jsval) : bool :=
  str_is downloadType "cover" || str_is downloadType "both".

(** The first [if]: the video file. *)
Definition push_video (parseResult : ParseResult) (downloadType : jsval)
           (files : list File) : M (list File) :=
  if wants_video downloadType && truthy (downloadUrl parseResult) then
    raw <- (if truthy (filename parseResult) then ret (filename parseResult)
            else t <- now ;; ret (stamped "douyin_video_" t ".mp4")) ;;
    name <- sanitize raw ;;
    ret (files ++ [ {| file_name := name;
                       file_size := size parseResult ||| JNum 0;
                       file_url := downloadUrl parseResult;
                       file_headers := getVideoHeaders |} ])
  else ret files.

(** The second [if]: the cover image. *)
Definition push_cover (parseResult : ParseResult) (downloadType : jsval)
           (files : list File) : M (list File) :=
  if wants_cover downloadType && truthy (cover parseResult) then
    t <- now ;;
    name <- sanitize (stamped "cover_" t ".jpg") ;;
    ret (files ++ [ {| file_name := name;
                       file_size := JNum 0;
                       file_url := cover parseResult;
                       file_headers := getImageHeaders |} ])
  else ret files.

Definition image_name (index : nat) (t : Z) : jstring :=
  lit "image_" ++ of_Z (Z.of_nat index + 1) ++ lit "_" ++ of_Z t ++ lit ".jpg".

(** [images.forEach((imageUrl, index) => files.push(...))], from [index]
    on. *)
Fixpoint each_image (index : nat) (imgs : list jsval) (files : list File)
  : M (list File) :=
  match imgs with
  | [] => ret files
  | imageUrl :: rest =>
      t <- now ;;
      name <- sanitize (JStr (image_name index t)) ;;
      each_image (S index) rest
                 (files ++ [ {| file_name := name;
                                file_size := JNum 0;
                                file_url := imageUrl;
                                file_headers := getImageHeaders |} ])
  end.

(** The third [if]: the images of a gallery. *)
Definition push_images (parseResult : ParseResult) (files : list File)
  : M (list File) :=
  if truthy (multipleFiles parseResult) && truthy (images parseResult) then
    match images parseResult with
    | JArr imgs => each_image 0 imgs files
    | _ => throw (fault w (NotAFunction "forEach"))
    end
  else ret files.

Definition buildDownloadFiles (parseResult : ParseResult)
           (downloadType : jsval) : M (list File) :=
  files <- push_video parseResult downloadType [] ;;
  files <- push_cover parseResult downloadType files ;;
  push_images parseResult files.

(** *** The default export *)

Definition route (linkType : LinkType) (finalUrl : jstring) (timeout : jsval)
  : M ParseResult :=
  match linkType with
  | short | video => parseVideoLink finalUrl timeout
  | note => parseNoteLink finalUrl timeout
  | user => parseUserLink finalUrl timeout
  | _ => parseVideoLink finalUrl timeout
  end.

Definition failure_prefix : jstring := lit "抖音解析失败: ".

(** The body of the [try] block; a parse result is an object, so the
    [if (!parseResult)] guard never fires. *)
Definition resolve (videoUrl : jstring) (timeout downloadType : jsval)
  : M Manifest :=
  let linkType := identifyLinkType videoUrl in
  finalUrl <- resolveRedirect videoUrl timeout ;;
  parseResult <- route linkType finalUrl timeout ;;
  files <- buildDownloadFiles parseResult downloadType ;;
  name <- (if truthy (title parseResult) then ret (title parseResult)
           else t <- now ;; ret (stamped "抖音内容_" t "")) ;;
  ret {| name := name;
         files := files;
         extra := {| extra_cover := cover parseResult;
                     extra_author := author parseResult;
                     extra_duration := duration parseResult;
                     platform := lit "douyin";
                     extra_type := type parseResult
                                   ||| JStr (lit "video") |} |}.

Definition main (ctx : Ctx) : M Manifest :=
  let videoUrl := ctx_url ctx in
  let timeout := setting timeout ctx ||| JNum 30000 in
  let downloadType := setting downloadType ctx ||| JStr (lit "video") in
  try_catch
    (resolve videoUrl timeout downloadType)
    (fun error => throw (Error (failure_prefix ++ message error))).

End Pipeline.

(** * The basic entry point

    The first module of [dist/index.js]: one resolution service, whose base
    URL the settings may override, one video file, and a [sanitizeFilename]
    that only replaces characters. *)

Module Basic.

Section Text.

(** What the engine prints for a number outside the safe integers, where
    it rounds the digits or writes an exponent. *)
Variable numberText : Z -> jstring.

(** [String(v)], as a template literal interpolates a value: a safe integer
    is written in decimal digits, an array joins its elements with commas,
    [null] and [undefined] elements being empty. *)
Fixpoint to_string (v : jsval) : jstring :=
  match v with
  | JUndef => lit "undefined"
  | JNull => lit "null"
  | JBool true => lit "true"
  | JBool false => lit "false"
  | JNum z => if (Z.abs z <? 2 ^ 53)%Z then of_Z z else numberText z
  | JStr s => s
  | JArr elems =>
      (fix join (l : list jsval) : jstring :=
         match l with
         | [] => []
         | x :: rest =>
             match x with
             | JUndef | JNull => []
             | _ => to_string x
             end
             ++ match rest with
                | [] => []
                | _ :: _ => 44 :: join rest
                end
         end) elems
  | JObj _ => lit "[object Object]"
  end.

End Text.

(** [filename.replace(...)] with the class of illegal characters. *)
Definition sanitizeFilename (filename : jstring) : jstring :=
  replace_illegal filename.

Record Extra := {
  extra_cover : jsval;
  extra_author : jsval;
  extra_duration : jsval
}.

Record Manifest := {
  name : jsval;
  files : list File;
  extra : Extra
}.

Definition default_endpoint : jsval := JStr (lit "https://api.douyin.wtf").

Definition api_headers : headers :=
  [ ("User-Agent", "Mozilla/5.0 (Windows NT 10.0; Win64; x64) AppleWebKit/537.36 (KHTML, like Gecko) Chrome/91.0.4472.124 Safari/537.36");
    ("Accept", "application/json") ]%string.

Definition download_headers : headers :=
  [ ("User-Agent", "Mozilla/5.0 (iPhone; CPU iPhone OS 14_6 like Mac OS X) AppleWebKit/605.1.15 (KHTML, like Gecko) Version/14.1.1 Mobile/15E148 Safari/604.1");
    ("Referer", "https://www.douyin.com/");
    ("Accept", "*/*") ]%string.

(** The request of [fetchDouyinVideoInfo]; a parameter left [undefined]
    takes its default. *)
Definition api_request (numberText : Z -> jstring) (apiEndpoint : jsval)
           (encoded : jstring) : Request :=
  let apiEndpoint := match apiEndpoint with
                     | JUndef => default_endpoint
                     | v => v
                     end in
  {| method := "GET";
     req_url := to_string numberText apiEndpoint ++ lit "/api?url=" ++ encoded;
     req_headers := api_headers |}.

Definition no_link : js_error := Error (lit "API返回的数据结构异常，未找到视频链接").

Definition no_download : js_error := Error (lit "未能获取到视频下载链接").

Definition failure_prefix : jstring := lit "抖音视频解析失败: ".

Section Run.

Variable w : World.

(** [response.statusText], which [Response] does not carry. *)
Variable statusText : Response -> jstring.

(** The engine's text of a number outside the safe integers. *)
Variable numberText : Z -> jstring.

Definition request_failed (response : Response) : js_error :=
  Error (lit "API请求失败: " ++ of_Z (status response) ++ lit " "
         ++ statusText response).

Definition fetchDouyinVideoInfo (url : jstring) (apiEndpoint : jsval)
  : M ParseResult :=
  encoded <- encodeURIComponent w url ;;
  response <- fetch w (api_request numberText apiEndpoint encoded) ;;
  if negb (ok response) then throw (request_failed response)
  else
    data <- read_json response ;;
    if truthy data && truthy (prop data "nwm_video_url") then
      title <- (if truthy (prop data "desc") then ret (prop data "desc")
                else t <- now w ;; ret (stamped "抖音视频_" t "")) ;;
      t <- now w ;;
      ret {| title := title;
             downloadUrl := prop data "nwm_video_url";
             images := absent;
             cover := prop data "cover_url";
             author := opt_prop (prop data "author") "nickname" ||| JStr [];
             duration := prop data "duration";
             filename := stamped "douyin_" t ".mp4";
             type := absent; multipleFiles := absent; size := absent |}
    else throw no_link.

(** [sanitizeFilename(v)]: [v.replace] is a function only on a string. *)
Definition sanitize (v : jsval) : M jstring :=
  match v with
  | JStr s => ret (sanitizeFilename s)
  | JUndef | JNull => throw (fault w (NullAccess "replace"))
  | _ => throw (fault w (NotAFunction "replace"))
  end.

(** The body of the [try] block. *)
Definition resolve (videoUrl : jstring) (apiEndpoint : jsval) : M Manifest :=
  videoInfo <- fetchDouyinVideoInfo videoUrl apiEndpoint ;;
  if negb (truthy (downloadUrl videoInfo)) then throw no_download
  else
    name <- (if truthy (title videoInfo) then ret (title videoInfo)
             else t <- now w ;; ret (stamped "抖音视频_" t "")) ;;
    file <- sanitize (filename videoInfo) ;;
    ret {| name := name;
           files := [ {| file_name := file;
                         file_size := size videoInfo ||| JNum 0;
                         file_url := downloadUrl videoInfo;
                         file_headers := download_headers |} ];
           extra := {| extra_cover := cover videoInfo;
                       extra_author := author videoInfo;
                       extra_duration := duration videoInfo |} |}.

Definition main (ctx : Ctx) : M Manifest :=
  try_catch
    (resolve (ctx_url ctx) (setting apiEndpoint ctx))
    (fun error => throw (Error (failure_prefix ++ message error))).

End Run.

End Basic.

(** * Vocabulary of the properties *)

(** ** Of file names *)

(** A character outside the replaced class. *)
Definition legal (c : char) : Prop := is_illegal c = false.

(** Every whitespace character is a plain space. *)
Definition only_spaces (s : jstring) : Prop :=
  Forall (fun c => is_space c = true -> c = space) s.

(** No whitespace character follows another. *)
Definition no_double (s : jstring) : Prop :=
  forall l1 a b l2, s = l1 ++ a :: b :: l2 ->
    is_space a = true -> is_space b = false.

Definition no_leading (s : jstring) : Prop :=
  match s with
  | [] => True
  | c :: _ => is_space c = false
  end.

Definition no_trailing (s : jstring) : Prop := no_leading (rev s).

(** A name longer than the cut with a space in its 200th place. *)
Definition cut_after_space : jstring := repeat 97 199 ++ lit " b".

(** A character that [sanitizeFilename] leaves alone. *)
Definition plain_char (c : char) : Prop :=
  (c <? 128) = true /\ is_illegal c = false /\ is_space c = false.

(** ** Of the classifier *)

Definition misses (url : jstring) (entry : LinkType * regex) : Prop :=
  test (snd entry) url = false.

(** ** Of the effectful pipeline *)

Definition logged (st : State) (e : Event) : State :=
  {| trace := trace st ++ [e]; ticks := ticks st |}.

Definition ticked (st : State) (n : nat) : State :=
  {| trace := trace st; ticks := n + ticks st |}.

(** The adapters invoked within a stretch of the trace, in order. *)
Definition invocations (evs : list Event) : list Adapter :=
  flat_map (fun e => match e with Invoked a => [a] | Fetched _ => [] end) evs.

(** What was recorded between two states. *)
Definition since (st st' : State) : list Event :=
  skipn (List.length (trace st)) (trace st').

(** An attempt the fallback loop accepts. *)
Definition accepted (o : outcome ParseResult * State) : bool :=
  match fst o with
  | Ok result => usable result
  | Throw _ => false
  end.

(** The two shapes of object an adapter builds: a video with its download
    URL, or a gallery with a non-empty array of images and neither download
    URL nor cover. *)
Definition named (r : ParseResult) : Prop :=
  exists s, filename r = JStr s /\ s <> [].

Definition video_shaped (r : ParseResult) : Prop :=
  truthy (downloadUrl r) = true /\ images r = JUndef
  /\ named r /\ size r = JUndef.

Definition gallery_shaped (r : ParseResult) : Prop :=
  downloadUrl r = JUndef /\ cover r = JUndef
  /\ (exists imgs, images r = JArr imgs /\ imgs <> [])
  /\ named r /\ size r = JUndef.

Definition shaped (r : ParseResult) : Prop :=
  (video_shaped r \/ gallery_shaped r) /\ multipleFiles r = JUndef.

(** The descriptors the builder makes. *)
Definition video_file (r : ParseResult) (s : jstring) : File :=
  {| file_name := sanitizeFilename s; file_size := JNum 0;
     file_url := downloadUrl r; file_headers := getVideoHeaders |}.

Definition cover_file (r : ParseResult) (t : Z) : File :=
  {| file_name := sanitizeFilename (lit "cover_" ++ of_Z t ++ lit ".jpg");
     file_size := JNum 0;
     file_url := cover r; file_headers := getImageHeaders |}.

Definition image_file (index : nat) (t : Z) (imageUrl : jsval) : File :=
  {| file_name := sanitizeFilename (image_name index t);
     file_size := JNum 0;
     file_url := imageUrl; file_headers := getImageHeaders |}.

(** The descriptors of a gallery whose first image has index [index] and is
    stamped with the clock's value number [tick]. *)
Fixpoint gallery (w : World) (tick index : nat) (imgs : list jsval)
  : list File :=
  match imgs with
  | [] => []
  | imageUrl :: rest =>
      image_file index (clock w tick) imageUrl
      :: gallery w (S tick) (S index) rest
  end.

(** What the routers hand to the builder: only [parseNoteLink] marks a
    gallery as multi-file. *)
Definition routed (r : ParseResult) : Prop :=
  (video_shaped r /\ multipleFiles r = JUndef)
  \/ (gallery_shaped r
      /\ (multipleFiles r = JUndef \/ multipleFiles r = JBool true)).

Definition image_list (r : ParseResult) : list jsval :=
  match images r with
  | JArr imgs => imgs
  | _ => []
  end.

(** An adapter records its own invocation and no other. *)
Definition own_events (a : Adapter) (p : Parser) : Prop :=
  forall url timeout st,
    exists evs, trace (snd (p url timeout st)) = trace st ++ evs
                /\ invocations evs = [a].

(** An adapter only returns objects of these shapes. *)
Definition builds (p : Parser) : Prop :=
  forall url timeout st r st',
    p url timeout st = (Ok r, st') -> shaped r.

(** The requests made within a stretch of the trace, in order. *)
Definition requests (evs : list Event) : list Request :=
  flat_map (fun e => match e with Fetched r => [r] | Invoked _ => [] end) evs.

(** The adapters in the order [parseWithFallback] tries them, and the
    address each one queries. *)
Definition adapters : list Adapter := [DouyinWTF; JiexiTop; TenAPI].

Definition endpoint (a : Adapter) : string :=
  match a with
  | DouyinWTF => "https://api.douyin.wtf/api?url="
  | JiexiTop => "https://api.jiexi.top/?url="
  | TenAPI => "https://tenapi.cn/douyin/?url="
  end.

(** The three requests for a target URL; none when the URL cannot be
    encoded. *)
Definition api_requests (target : jstring) : list Request :=
  match Uri.encodeURIComponent target with
  | Some encoded => map (fun a => api_request (endpoint a) encoded) adapters
  | None => []
  end.

(** The request of the redirect step, if it makes one. *)
Definition redirect_requests (url : jstring) : list Request :=
  if includes url (lit "v.douyin.com") then [head_request url] else [].

(** The value of [type] the routers give a link. *)
Definition type_of (linkType : LinkType) : jsval :=
  match linkType with
  | note => JStr (lit "note")
  | _ => JStr (lit "video")
  end.

(** What an adapter leaves to the routers: a title that passes for true
    and no type yet. *)
Definition titled (r : ParseResult) : Prop :=
  truthy (title r) = true /\ type r = JUndef.

(** The name as cleaned before the cut. *)
Definition trimmed (s : jstring) : jstring :=
  trim (collapse_space (replace_illegal s)).

(** A descriptor the builder may put in a manifest. *)
Definition well_formed_file (f : File) : Prop :=
  (List.length (file_name f) <= 200)%nat
  /\ Forall legal (file_name f)
  /\ file_size f = JNum 0
  /\ (file_headers f = getVideoHeaders \/ file_headers f = getImageHeaders).

(** The first pattern of [patterns]. *)
Definition short_pattern : regex := chars "v.douyin.com/" ++ [Plus is_word].

(** What an adapter adds to the trace: its invocation, then its one request
    unless the URL cannot be encoded. *)
Definition adapter_events (a : Adapter) (url : jstring) : list Event :=
  Invoked a
  :: match Uri.encodeURIComponent url with
     | Some encoded => [Fetched (api_request (endpoint a) encoded)]
     | None => []
     end.

Definition run_of (w : World) (a : Adapter) : Parser :=
  match a with
  | DouyinWTF => parseWithDouyinWTF w
  | JiexiTop => parseWithJiexiTop w
  | TenAPI => parseWithTenAPI w
  end.

(** The context with [settings.apiEndpoint] set to [endpoint]. *)
Definition with_endpoint (apiEndpoint : jsval) (ctx : Ctx) : Ctx :=
  {| ctx_url := ctx_url ctx;
     settings :=
       Some {| apiEndpoint := apiEndpoint;
               timeout := setting timeout ctx;
               downloadType := setting downloadType ctx |} |}.

(** The settings as the entry point reads them. *)
Definition timeout_of (ctx : Ctx) : jsval := setting timeout ctx ||| JNum 30000.

Definition mode_of (ctx : Ctx) : jsval :=
  setting downloadType ctx ||| JStr (lit "video").

Definition LinkType_eq_dec (a b : LinkType) : {a = b} + {a <> b}.
Proof. decide equality. Defined.

(** ** Scenarios *)

Module Scenario.

Local Open Scope string_scope.

Definition str (s : string) : jsval := JStr (lit s).

Definition obj (fields : list (string * jsval)) : jsval :=
  JObj (map (fun kv => (lit (fst kv), snd kv)) fields).

(** How a service answers: not at all, with an HTTP status and no usable
    body, or with a JSON body. *)
Inductive Reply :=
| Down
| Status (code : Z)
| Body (data : jsval).

Definition answer (reply : Reply) (r : Request) : js_error + Response :=
  match reply with
  | Down => inl (Error (lit "The operation was aborted"))
  | Status code =>
      inr {| ok := false; status := code; response_url := req_url r;
             json := inl (Error (lit "Unexpected end of JSON input")) |}
  | Body data =>
      inr {| ok := true; status := 200; response_url := req_url r; json := inr data |}
  end.

(** The response to a HEAD request that was redirected to [u]. *)
Definition landing (u : string) : Response :=
  {| ok := true; status := 200; response_url := lit u;
     json := inl (Error (lit "Unexpected end of JSON input")) |}.

Definition aborted : js_error := Error (lit "The operation was aborted").

Definition redirected (target : option string) (r : Request)
  : js_error + Response :=
  match target with
  | Some u => inr (landing u)
  | None => inl aborted
  end.

(** A world with a redirect target for HEAD requests and one reply per
    resolution service. *)
Definition world (target : option string) (wtf jiexi ten : Reply) : World :=
  {| net := fun _ r =>
       if String.eqb (method r) "HEAD" then redirected target r
       else if starts_with (lit "https://api.douyin.wtf/") (req_url r)
       then answer wtf r
       else if starts_with (lit "https://api.jiexi.top/") (req_url r)
       then answer jiexi r
       else if starts_with (lit "https://tenapi.cn/") (req_url r)
       then answer ten r
       else answer Down r;
     clock := fun n => (1700000000000 + Z.of_nat n)%Z;
     fault := fun _ => Error (lit "TypeError") |}.

Definition with_mode (url mode : string) : Ctx :=
  {| ctx_url := lit url;
     settings := Some {| apiEndpoint := JUndef; timeout := JUndef;
                         downloadType := str mode |} |}.

Definition plain (url : string) : Ctx :=
  {| ctx_url := lit url; settings := None |}.

Definition default_timeout : jsval := JNum 30000.

(** The primary service knows the video and its cover. *)
Definition video_world : World :=
  world (Some "https://www.douyin.com/video/123")
        (Body (obj [ ("nwm_video_url", str "https://cdn/x.mp4");
                     ("cover_url", str "https://cdn/x.jpg");
                     ("desc", str "Test") ]))
        Down Down.

(** The primary service knows the video but no cover. *)
Definition coverless_world : World :=
  world None (Body (obj [ ("nwm_video_url", str "https://cdn/x.mp4") ]))
        Down Down.

(** The primary service answers with a gallery of three images. *)
Definition gallery_world : World :=
  world None
        (Body (obj [ ("images", JArr [str "a.jpg"; str "b.jpg"; str "c.jpg"]);
                     ("desc", str "Notes") ]))
        Down Down.

(** Only the second backup answers. *)
Definition backup_world : World :=
  world None Down (Status 500)
        (Body (obj [ ("code", JNum 200); ("url", str "https://cdn/y.mp4") ])).

(** The first backup answers. *)
Definition second_world : World :=
  world None (Status 502)
        (Body (obj [ ("videoUrl", str "https://cdn/z.mp4") ]))
        (Body (obj [ ("code", JNum 200); ("url", str "https://cdn/y.mp4") ])).

Definition blank : ParseResult :=
  {| title := JUndef; downloadUrl := JUndef; images := JUndef;
     cover := JUndef; author := JUndef; duration := JUndef;
     filename := JUndef; type := JUndef; multipleFiles := JUndef;
     size := JUndef |}.

Definition result_of (o : outcome ParseResult * State) : ParseResult :=
  match fst o with
  | Ok r => r
  | Throw _ => blank
  end.

Definition short_url : jstring := lit "https://v.douyin.com/abcd1234/".
Definition video_url : jstring := lit "https://www.douyin.com/video/123".
Definition note_url : jstring := lit "https://www.douyin.com/note/456".
Definition user_url : string := "https://www.douyin.com/user/MS4w-abc".

Definition video_run : outcome ParseResult * State :=
  route video_world video video_url default_timeout init.

Definition coverless_run : outcome ParseResult * State :=
  route coverless_world video video_url default_timeout init.

Definition gallery_run : outcome ParseResult * State :=
  parseNoteLink gallery_world note_url default_timeout init.

Definition three_images : list jsval := [str "a.jpg"; str "b.jpg"; str "c.jpg"].

End Scenario.

(** ** Further inputs *)

Module Cases.

Local Open Scope string_scope.

(** The same world under a clock that stands still. *)
Definition steady (w : World) : World :=
  {| net := net w; clock := fun _ => 1700000000000%Z; fault := fault w |}.

(** No service answers. *)
Definition down_world : World :=
  Scenario.world None Scenario.Down Scenario.Down Scenario.Down.

(** A short link that leads to a note, which the primary service resolves
    to a gallery. *)
Definition note_behind_short : World :=
  Scenario.world (Some "https://www.douyin.com/note/456")
    (Scenario.Body
       (Scenario.obj [ ("images", JArr Scenario.three_images);
                       ("desc", Scenario.str "Notes") ]))
    Scenario.Down Scenario.Down.

Definition short_ctx : Ctx := Scenario.plain "https://v.douyin.com/abcd1234/".

Definition video_ctx : Ctx :=
  Scenario.with_mode "https://www.douyin.com/video/123" "both".

Definition blank_manifest : Manifest :=
  {| name := JUndef; files := [];
     extra := {| extra_cover := JUndef; extra_author := JUndef;
                 extra_duration := JUndef; platform := [];
                 extra_type := JUndef |} |}.

Definition manifest_of (o : outcome Manifest * State) : Manifest :=
  match fst o with
  | Ok m => m
  | Throw _ => blank_manifest
  end.

Definition video_main : outcome Manifest * State :=
  main (steady Scenario.video_world) video_ctx init.

Definition gallery_fallback : outcome ParseResult * State :=
  parseWithFallback Scenario.gallery_world Scenario.note_url
                    Scenario.default_timeout init.

Definition short_gallery_run : outcome ParseResult * State :=
  route note_behind_short short (lit "https://www.douyin.com/note/456")
        Scenario.default_timeout init.


Definition number_text (z : Z) : jstring := lit "1e+21".

(** A user page whose query mentions the short-link host. *)
Definition mention_url : jstring :=
  lit "https://www.douyin.com/user/abc?from=v.douyin.com".




End Cases.

(** * Properties *)

(** ** [sanitizeFilename] *)

Module Sanitize.

Lemma drop_space_suffix s : exists pre, s = pre ++ drop_space s.
Proof.
  induction s as [|c r [pre IH]]; simpl.
  - now exists [].
  - destruct (is_space c).
    + exists (c :: pre). simpl. now f_equal.
    + now exists [].
Qed.

Lemma drop_space_head s : no_leading (drop_space s).
Proof.
  induction s as [|c r IH]; simpl; [exact I|].
  destruct (is_space c) eqn:E; [exact IH | exact E].
Qed.

Lemma drop_space_keeps_last l c :
  is_space c = false -> exists x, drop_space (l ++ [c]) = x ++ [c].
Proof.
  intros Hc. induction l as [|d l IH]; simpl.
  - rewrite Hc. now exists [].
  - destruct (is_space d); [exact IH|]. now exists (d :: l).
Qed.

Lemma trim_no_leading s : no_leading (trim s).
Proof.
  unfold trim. pose proof (drop_space_head s) as H.
  destruct (drop_space s) as [|c r]; simpl in *; [exact I|].
  destruct (drop_space_keeps_last (rev r) c H) as [x Hx].
  rewrite Hx, rev_app_distr. simpl. exact H.
Qed.

Lemma trim_no_trailing s : no_trailing (trim s).
Proof.
  unfold no_trailing, trim. rewrite rev_involutive. apply drop_space_head.
Qed.

Lemma firstn_no_leading n s : no_leading s -> no_leading (firstn n s).
Proof. destruct n, s; simpl; auto. Qed.

Lemma no_double_app_l s t : no_double (s ++ t) -> no_double s.
Proof.
  intros H l1 a b l2 E. apply (H l1 a b (l2 ++ t)).
  rewrite E, <- app_assoc. reflexivity.
Qed.

Lemma no_double_app_r s t : no_double (s ++ t) -> no_double t.
Proof.
  intros H l1 a b l2 E. apply (H (s ++ l1) a b l2).
  rewrite E, <- app_assoc. reflexivity.
Qed.

Lemma no_double_cons c s :
  no_double s -> (is_space c = true -> no_leading s) -> no_double (c :: s).
Proof.
  intros Hs Hc l1 a b l2 E Ha. destruct l1 as [|x l1]; simpl in E.
  - injection E as -> ->. exact (Hc Ha).
  - injection E as -> ->. exact (Hs l1 a b l2 eq_refl Ha).
Qed.

Lemma collapse_from_spec b s :
  no_double (collapse_from b s)
  /\ only_spaces (collapse_from b s)
  /\ (b = true -> no_leading (collapse_from b s)).
Proof.
  revert b. induction s as [|c r IH]; intros b; simpl.
  - repeat split; [|constructor].
    intros [|? ?] ? ? ? E; discriminate E.
  - destruct (is_space c) eqn:Ec.
    + destruct (IH true) as (Hd & Ho & Hl). destruct b.
      * repeat split; auto.
      * repeat split.
        -- apply no_double_cons; auto.
        -- constructor; auto.
        -- discriminate.
    + destruct (IH false) as (Hd & Ho & _). repeat split.
      * apply no_double_cons; [exact Hd | congruence].
      * constructor; [congruence | exact Ho].
      * intros _. exact Ec.
Qed.

Lemma no_double_rev s : no_double s -> no_double (rev s).
Proof.
  intros Hd l1 a b l2 E Ha.
  assert (Es : s = rev l2 ++ b :: a :: rev l1).
  { rewrite <- (rev_involutive s), E, rev_app_distr. simpl.
    rewrite <- !app_assoc. reflexivity. }
  destruct (is_space b) eqn:Eb; [|reflexivity].
  pose proof (Hd _ _ _ _ Es Eb). congruence.
Qed.

Lemma only_spaces_suffix pre s : only_spaces (pre ++ s) -> only_spaces s.
Proof. unfold only_spaces. rewrite Forall_app. tauto. Qed.

Lemma trim_collapsed s :
  no_double s -> only_spaces s -> no_double (trim s) /\ only_spaces (trim s).
Proof.
  intros Hd Ho. unfold trim.
  destruct (drop_space_suffix s) as [p1 E1].
  assert (Hd1 : no_double (drop_space s))
    by (apply (no_double_app_r p1); rewrite <- E1; exact Hd).
  assert (Ho1 : only_spaces (drop_space s))
    by (apply (only_spaces_suffix p1); rewrite <- E1; exact Ho).
  set (t := drop_space s) in *.
  destruct (drop_space_suffix (rev t)) as [p2 E2].
  assert (Hd2 : no_double (drop_space (rev t))).
  { apply (no_double_app_r p2). rewrite <- E2. now apply no_double_rev. }
  assert (Ho2 : only_spaces (drop_space (rev t))).
  { apply (only_spaces_suffix p2). rewrite <- E2. now apply Forall_rev. }
  split; [apply no_double_rev; assumption | now apply Forall_rev].
Qed.

Lemma Forall_cut (P : char -> Prop) n s : Forall P s -> Forall P (firstn n s).
Proof.
  intros H. rewrite <- (firstn_skipn n s) in H.
  apply Forall_app in H. tauto.
Qed.

Lemma replace_illegal_legal s : Forall legal (replace_illegal s).
Proof.
  unfold replace_illegal. apply Forall_forall. intros c Hc.
  apply in_map_iff in Hc. destruct Hc as (d & <- & _).
  unfold legal. destruct (is_illegal d) eqn:E; [reflexivity | exact E].
Qed.

Lemma collapse_from_legal b s :
  Forall legal s -> Forall legal (collapse_from b s).
Proof.
  intros H. revert b. induction H as [|c r Hc _ IH]; intros b; simpl.
  - constructor.
  - destruct (is_space c); [destruct b|]; auto.
    constructor; [reflexivity | auto].
Qed.

Lemma trim_legal s : Forall legal s -> Forall legal (trim s).
Proof.
  intros H. unfold trim. apply Forall_rev.
  destruct (drop_space_suffix (rev (drop_space s))) as [p2 E2].
  destruct (drop_space_suffix s) as [p1 E1].
  rewrite E1 in H. apply Forall_app in H. destruct H as [_ H].
  apply Forall_rev in H. rewrite E2 in H. apply Forall_app in H. tauto.
Qed.

(** At most 200 characters. *)
Lemma length_bound s : (List.length (sanitizeFilename s) <= 200)%nat.
Proof. unfold sanitizeFilename, substring0. apply firstn_le_length. Qed.

(** None of the replaced characters survives. *)
Lemma all_legal s : Forall legal (sanitizeFilename s).
Proof.
  unfold sanitizeFilename, substring0. apply Forall_cut, trim_legal,
    collapse_from_legal, replace_illegal_legal.
Qed.

(** Runs of whitespace are single spaces, and none leads the result. *)
Lemma collapsed s :
  no_double (sanitizeFilename s) /\ only_spaces (sanitizeFilename s)
  /\ no_leading (sanitizeFilename s).
Proof.
  unfold sanitizeFilename, substring0, collapse_space.
  set (t := replace_illegal s).
  destruct (collapse_from_spec false t) as (Hd & Ho & _).
  destruct (trim_collapsed Hd Ho) as [Hd' Ho'].
  repeat split.
  - apply no_double_app_l with (t := skipn 200 (trim (collapse_from false t))).
    rewrite firstn_skipn. exact Hd'.
  - apply Forall_cut. exact Ho'.
  - apply firstn_no_leading, trim_no_leading.
Qed.

(** No whitespace trails the result when nothing had to be cut. *)
Lemma no_trailing_uncut s :
  (List.length (trim (collapse_space (replace_illegal s))) <= 200)%nat ->
  no_trailing (sanitizeFilename s).
Proof.
  intros H. unfold sanitizeFilename, substring0.
  rewrite firstn_all2 by exact H. apply trim_no_trailing.
Qed.

(** A name that needs no cleaning is returned as it is. *)
Lemma drop_space_clean s :
  Forall (fun c => is_space c = false) s -> drop_space s = s.
Proof. intros H. destruct H as [|c r Hc _]; simpl; [|rewrite Hc]; reflexivity. Qed.

Lemma clean_fixed s :
  Forall (fun c => is_illegal c = false /\ is_space c = false) s ->
  (List.length s <= 200)%nat ->
  sanitizeFilename s = s.
Proof.
  intros H Hlen. unfold sanitizeFilename, substring0, collapse_space.
  assert (E1 : replace_illegal s = s).
  { clear Hlen. unfold replace_illegal.
    induction H as [|c r [Hc _] _ IH]; simpl; [|rewrite Hc, IH]; reflexivity. }
  assert (Hs : Forall (fun c => is_space c = false) s)
    by (eapply Forall_impl; [|exact H]; simpl; tauto).
  assert (E2 : collapse_from false s = s).
  { clear -Hs. induction Hs as [|c r Hc _ IH]; simpl;
      [|rewrite Hc, IH]; reflexivity. }
  rewrite E1, E2. unfold trim.
  rewrite (drop_space_clean Hs), drop_space_clean by now apply Forall_rev.
  rewrite rev_involutive. now apply firstn_all2.
Qed.

End Sanitize.

(** C2: [sanitizeFilename] trims before it cuts, so a name whose 200th
    character (after cleaning) is a space comes out with that space at its
    end: on 199 letters followed by a space and a letter the result is the
    199 letters and the space, which breaks the promise of no trailing
    whitespace.  The other promises of the claim hold for every input
    ([Sanitize.length_bound], [Sanitize.all_legal], [Sanitize.collapsed]). *)
Theorem sanitizeFilename_trailing_space_after_cut :
  sanitizeFilename cut_after_space = repeat 97 199 ++ [space]
  /\ ~ no_trailing (sanitizeFilename cut_after_space).
Proof.
  assert (E : sanitizeFilename cut_after_space
              = repeat 97 199 ++ [space]) by (vm_compute; reflexivity).
  split; [exact E|].
  rewrite E. unfold no_trailing. rewrite rev_app_distr. simpl.
  discriminate.
Qed.

(** ** [identifyLinkType] *)

Lemma scan_first_match entries url :
  (exists before type pattern after,
      entries = before ++ (type, pattern) :: after
      /\ Forall (misses url) before
      /\ test pattern url = true
      /\ scan entries url = type)
  \/ (Forall (misses url) entries /\ scan entries url = unknown).
Proof.
  induction entries as [|[type pattern] rest IH]; simpl.
  - right. split; [constructor | reflexivity].
  - destruct (test pattern url) eqn:E.
    + left. exists [], type, pattern, rest.
      exact (conj eq_refl (conj (Forall_nil _) (conj E eq_refl))).
    + destruct IH as [(before & ty & pat & after & -> & Hb & Ht & Hs) | [Hall Hs]].
      * left. exists ((type, pattern) :: before), ty, pat, after.
        exact (conj eq_refl (conj (Forall_cons (type, pattern) E Hb) (conj Ht Hs))).
      * right. exact (conj (Forall_cons (type, pattern) E Hall) Hs).
Qed.

(** C9: [identifyLinkType] is a total function of the string: it gives
    every URL exactly one link type, namely the type of the first entry of
    [patterns], in their fixed order, whose pattern matches somewhere in the
    URL, and [unknown] when no pattern matches. *)
Theorem identifyLinkType_first_match_wins (url : jstring) :
  (exists! type, identifyLinkType url = type)
  /\ map fst patterns = [short; video; note; user; discover; share; ies]
  /\ ((exists before type pattern after,
          patterns = before ++ (type, pattern) :: after
          /\ Forall (misses url) before
          /\ test pattern url = true
          /\ identifyLinkType url = type)
      \/ (Forall (misses url) patterns /\ identifyLinkType url = unknown)).
Proof.
  split; [|split].
  - exists (identifyLinkType url). split; [reflexivity | auto].
  - reflexivity.
  - apply scan_first_match.
Qed.

Example classify_short :
  identifyLinkType (lit "https://v.douyin.com/abcd1234/") = short.
Proof. vm_compute. reflexivity. Qed.

Example classify_video :
  identifyLinkType (lit "https://www.douyin.com/video/7123456") = video.
Proof. vm_compute. reflexivity. Qed.

Example classify_user :
  identifyLinkType (lit "https://www.douyin.com/user/MS4w-abc") = user.
Proof. vm_compute. reflexivity. Qed.

Example classify_share_before_ies :
  identifyLinkType (lit "https://www.iesdouyin.com/share/video/71") = share.
Proof. vm_compute. reflexivity. Qed.

Example classify_unknown :
  identifyLinkType (lit "https://example.org/watch?v=1") = unknown.
Proof. vm_compute. reflexivity. Qed.

(** A URL classified [short] passes the test of [resolveRedirect]. *)
Lemma match_here_literal p re s :
  match_here (map Chr p ++ re) s = true -> starts_with p s = true.
Proof.
  revert s. induction p as [|c p IH]; intros s H; [reflexivity|].
  destruct s as [|d s]; simpl in *; [discriminate|].
  apply andb_prop in H. destruct H as [-> H]. simpl. now apply IH.
Qed.

Lemma test_literal p re s :
  test (map Chr p ++ re) s = true -> includes s p = true.
Proof.
  induction s as [|d s IH]; simpl; intros H; apply orb_prop in H;
    destruct H as [H | H]; try discriminate.
  - apply match_here_literal in H. now rewrite H.
  - apply match_here_literal in H. now rewrite H.
  - rewrite (IH H). apply orb_true_r.
Qed.

Lemma short_passes_redirect_test url :
  identifyLinkType url = short -> includes url (lit "v.douyin.com") = true.
Proof.
  unfold identifyLinkType, patterns, scan.
  destruct (test (chars "v.douyin.com/" ++ [Plus is_word]) url) eqn:E.
  - intros _. apply (test_literal (lit "v.douyin.com") (Chr 47 :: [Plus is_word])).
    exact E.
  - repeat match goal with
           | |- context [if ?c then _ else _] => destruct c
           end; discriminate.
Qed.

(** ** The effectful pipeline *)

Section Properties.

Variable w : World.

Ltac run :=
  unfold bind, try_catch, record, encodeURIComponent, fetch, read_json,
    deref, now, throw, ret in *.

Ltac cases :=
  repeat (match goal with
          | H : (_, _) = (_, _) |- _ => inversion H; subst; clear H
          | |- context [match ?x with _ => _ end] => destruct x eqn:?
          | H : context [match ?x with _ => _ end] |- _ => destruct x eqn:?
          end; cbn [fst snd trace ticks] in *).

(** *** [resolveRedirect] *)

Lemma resolveRedirect_run url timeout st :
  resolveRedirect w url timeout st
  = if includes url (lit "v.douyin.com")
    then (Ok match net w (trace st) (head_request url) with
             | inr response => response_url response
             | inl _ => url
             end,
          logged st (Fetched (head_request url)))
    else (Ok url, st).
Proof.
  unfold resolveRedirect, logged. run.
  destruct (includes url (lit "v.douyin.com")); cbn; [|reflexivity].
  destruct (net w (trace st) (head_request url)); reflexivity.
Qed.

(** C6, as amended: [resolveRedirect] always returns a URL and never
    throws.  What it tests is whether the text [v.douyin.com] occurs in the
    URL: a URL without it is returned unchanged and nothing is fetched; for
    a URL with it (every URL classified [short] is one, and so is a URL of
    another type that only mentions the host) one HEAD request is made and
    the result is the final URL of the response when the request settles,
    and the original URL when it is rejected (network error or timeout). *)
Theorem resolveRedirect_never_throws (url : jstring) (timeout : jsval)
        (st : State) :
  (exists final st', resolveRedirect w url timeout st = (Ok final, st'))
  /\ (includes url (lit "v.douyin.com") = false ->
      resolveRedirect w url timeout st = (Ok url, st))
  /\ (includes url (lit "v.douyin.com") = true ->
      forall response,
        net w (trace st) (head_request url) = inr response ->
        resolveRedirect w url timeout st
        = (Ok (response_url response), logged st (Fetched (head_request url))))
  /\ (includes url (lit "v.douyin.com") = true ->
      forall error,
        net w (trace st) (head_request url) = inl error ->
        resolveRedirect w url timeout st
        = (Ok url, logged st (Fetched (head_request url))))
  /\ (identifyLinkType url = short ->
      includes url (lit "v.douyin.com") = true).
Proof.
  pose proof (@short_passes_redirect_test url) as S.
  rewrite resolveRedirect_run.
  destruct (includes url (lit "v.douyin.com")).
  - split; [eauto|]. split; [discriminate|].
    split; [intros _ x ->; reflexivity|].
    split; [intros _ x ->; reflexivity | exact S].
  - split; [eauto|]. split; [reflexivity|]. split; [discriminate|].
    split; [discriminate | exact S].
Qed.

(** *** The adapters *)

Lemma parseWithDouyinWTF_events : own_events DouyinWTF (parseWithDouyinWTF w).
Proof.
  intros url timeout st. unfold parseWithDouyinWTF. run. simpl.
  cases; simpl; rewrite <- ?app_assoc; eexists; split; reflexivity.
Qed.

Lemma parseWithJiexiTop_events : own_events JiexiTop (parseWithJiexiTop w).
Proof.
  intros url timeout st. unfold parseWithJiexiTop. run. simpl.
  cases; simpl; rewrite <- ?app_assoc; eexists; split; reflexivity.
Qed.

Lemma parseWithTenAPI_events : own_events TenAPI (parseWithTenAPI w).
Proof.
  intros url timeout st. unfold parseWithTenAPI. run. simpl.
  cases; simpl; rewrite <- ?app_assoc; eexists; split; reflexivity.
Qed.

Ltac shape :=
  unfold shaped, video_shaped, gallery_shaped, named; cbn;
  repeat match goal with
         | H : _ = _ |- _ => rewrite H
         end.

Ltac absurd_case :=
  try discriminate;
  try (cbn in *; rewrite ?andb_false_r in *; discriminate).

Lemma parseWithDouyinWTF_builds : builds (parseWithDouyinWTF w).
Proof.
  intros url timeout st r st' H. unfold parseWithDouyinWTF in H. run.
  cbn in H. cases; absurd_case.
  all: shape.
  all: split; [|reflexivity].
  all: try (left; repeat split; auto;
            eexists; split; [reflexivity | discriminate]).
  all: right; repeat split; auto;
    (eexists; split; [reflexivity | try discriminate]).
  all: intros ->; discriminate.
Qed.

Lemma parseWithJiexiTop_builds : builds (parseWithJiexiTop w).
Proof.
  intros url timeout st r st' H. unfold parseWithJiexiTop in H. run.
  cbn in H. cases; absurd_case.
  all: shape.
  all: split; [|reflexivity].
  all: left; repeat split; auto;
    eexists; split; [reflexivity | discriminate].
Qed.

Lemma parseWithTenAPI_builds : builds (parseWithTenAPI w).
Proof.
  intros url timeout st r st' H. unfold parseWithTenAPI in H. run.
  cbn in H. cases; absurd_case.
  all: shape.
  all: split; [|reflexivity].
  all: left; repeat split; auto;
    try (eexists; split; [reflexivity | discriminate]).
  all: match goal with
       | H : _ && _ = true |- _ => apply andb_prop in H; destruct H as [_ H]
       end; assumption.
Qed.

(** *** [parseWithFallback] *)

Lemma try_parsers_step (parser : Parser) rest url timeout st :
  try_parsers (parser :: rest) url timeout st
  = if accepted (parser url timeout st) then parser url timeout st
    else try_parsers rest url timeout (snd (parser url timeout st)).
Proof.
  unfold accepted. simpl. run.
  destruct (parser url timeout st) as [[result | error] st1]; simpl;
    [destruct (usable result)|]; reflexivity.
Qed.

Lemma since_app st st' evs :
  trace st' = trace st ++ evs -> since st st' = evs.
Proof.
  intros E. unfold since. rewrite E.
  rewrite skipn_app, skipn_all, Nat.sub_diag. reflexivity.
Qed.

Lemma invocations_app evs evs' :
  invocations (evs ++ evs') = invocations evs ++ invocations evs'.
Proof. apply flat_map_app. Qed.

(** C4: [parseWithFallback] runs the adapters one after the other, each
    from the state the previous one left, in the order douyin.wtf,
    jiexi.top, tenapi.cn.  Its outcome is that of the first adapter whose
    result is accepted, and the adapters after that one are not invoked (if
    the first fails and the second succeeds, the outcome is the second's and
    tenapi.cn is never invoked); it throws the one error [all_failed]
    exactly when all three attempts fail. *)
Theorem parseWithFallback_sequential (url : jstring) (timeout : jsval)
        (st : State) :
  let first := parseWithDouyinWTF w url timeout st in
  let second := parseWithJiexiTop w url timeout (snd first) in
  let third := parseWithTenAPI w url timeout (snd second) in
  parseWithFallback w url timeout st
  = (if accepted first then first
     else if accepted second then second
     else if accepted third then third
     else (Throw all_failed, snd third))
  /\ invocations (since st (snd (parseWithFallback w url timeout st)))
     = (if accepted first then [DouyinWTF]
        else if accepted second then [DouyinWTF; JiexiTop]
        else [DouyinWTF; JiexiTop; TenAPI]).
Proof.
  intros first second third.
  assert (E : parseWithFallback w url timeout st
              = (if accepted first then first
                 else if accepted second then second
                 else if accepted third then third
                 else (Throw all_failed, snd third))).
  { unfold parseWithFallback, parsers. rewrite !try_parsers_step.
    fold first. fold second. fold third. reflexivity. }
  split; [exact E|]. rewrite E.
  destruct (parseWithDouyinWTF_events url timeout st) as (e1 & T1 & I1).
  destruct (parseWithJiexiTop_events url timeout (snd first)) as (e2 & T2 & I2).
  destruct (parseWithTenAPI_events url timeout (snd second)) as (e3 & T3 & I3).
  fold first in T1. fold second in T2. fold third in T3.
  rewrite T1 in T2. rewrite T2 in T3. rewrite <- app_assoc in T2, T3.
  rewrite <- app_assoc in T3.
  destruct (accepted first); [|destruct (accepted second);
                                [|destruct (accepted third)]].
  - rewrite (@since_app _ _ _ T1). exact I1.
  - rewrite (@since_app _ _ _ T2), invocations_app, I1, I2. reflexivity.
  - rewrite (@since_app _ _ _ T3), !invocations_app, I1, I2, I3. reflexivity.
  - cbn [snd]. rewrite (@since_app _ _ _ T3), !invocations_app, I1, I2, I3.
    reflexivity.
Qed.

Lemma try_parsers_accepts ps url timeout st r st' :
  try_parsers ps url timeout st = (Ok r, st') ->
  usable r = true
  /\ exists (p : Parser) st0, In p ps /\ p url timeout st0 = (Ok r, st').
Proof.
  revert st. induction ps as [|p rest IH]; intros st H.
  - discriminate H.
  - rewrite try_parsers_step in H. unfold accepted in H.
    destruct (p url timeout st) as [[result | error] st1] eqn:E; cbn in H.
    + destruct (usable result) eqn:U.
      * injection H as -> ->. split; [exact U|].
        exists p, st. split; [left; reflexivity | exact E].
      * destruct (IH _ H) as (U' & q & st0 & Hq & Hr).
        split; [exact U'|]. exists q, st0. split; [right; exact Hq | exact Hr].
    + destruct (IH _ H) as (U' & q & st0 & Hq & Hr).
      split; [exact U'|]. exists q, st0. split; [right; exact Hq | exact Hr].
Qed.

Lemma parseWithFallback_result url timeout st r st' :
  parseWithFallback w url timeout st = (Ok r, st') ->
  usable r = true /\ shaped r.
Proof.
  intros H. apply try_parsers_accepts in H.
  destruct H as (U & p & st0 & Hp & Hr). split; [exact U|].
  destruct Hp as [<- | [<- | [<- | []]]].
  - exact (parseWithDouyinWTF_builds _ _ _ Hr).
  - exact (parseWithJiexiTop_builds _ _ _ Hr).
  - exact (parseWithTenAPI_builds _ _ _ Hr).
Qed.

(** *** The routers *)

Lemma parseVideoLink_result url timeout st r st' :
  parseVideoLink w url timeout st = (Ok r, st') ->
  usable r = true /\ shaped r /\ type r = JStr (lit "video").
Proof.
  unfold parseVideoLink. run. intros H.
  destruct (parseWithFallback w url timeout st) as [[v | e] st1] eqn:E;
    [|discriminate].
  injection H as <- <-. destruct (parseWithFallback_result _ _ _ E) as [U S].
  exact (conj U (conj S eq_refl)).
Qed.

Lemma parseNoteLink_result url timeout st r st' :
  parseNoteLink w url timeout st = (Ok r, st') ->
  usable r = true /\ type r = JStr (lit "note")
  /\ ((video_shaped r /\ multipleFiles r = JUndef)
      \/ (gallery_shaped r /\ multipleFiles r = JBool true)).
Proof.
  unfold parseNoteLink. run. intros H.
  destruct (parseWithFallback w url timeout st) as [[v | e] st1] eqn:E;
    [|discriminate].
  destruct (parseWithFallback_result _ _ _ E) as [U [[V | G] Hm]].
  - destruct V as (Hd & Hi & Hn & Hs). cbn in H. rewrite Hi in H. cbn in H.
    injection H as <- <-. repeat split; auto.
    left. repeat split; auto.
  - destruct G as (Hd & Hc & (imgs & Hi & Hne) & Hn & Hs). cbn in H.
    rewrite Hi in H. cbn in H. injection H as <- <-. repeat split; auto.
    right. repeat split; auto. exists imgs. auto.
Qed.

Lemma route_result linkType url timeout st r st' :
  route w linkType url timeout st = (Ok r, st') ->
  usable r = true /\ routed r.
Proof.
  intros H. unfold routed.
  destruct linkType; cbn in H;
    try (apply parseVideoLink_result in H;
         destruct H as (U & [[V | G] Hm] & _); split; auto; fail);
    try discriminate.
  apply parseNoteLink_result in H. destruct H as (U & _ & [[V Hm] | [G Hm]]);
    split; auto.
Qed.

(** *** [buildDownloadFiles] *)

Lemma each_image_runs index imgs files st :
  each_image w index imgs files st
  = (Ok (files ++ gallery w (ticks st) index imgs),
     ticked st (List.length imgs)).
Proof.
  revert index files st.
  induction imgs as [|imageUrl rest IH]; intros index files st.
  - destruct st. cbn. rewrite app_nil_r. reflexivity.
  - cbn [each_image sanitize]. run. cbv beta iota. rewrite IH.
    unfold ticked. cbn [trace ticks gallery List.length].
    rewrite <- app_assoc, Nat.add_succ_r. reflexivity.
Qed.

Lemma build_video_shaped r s mode st :
  video_shaped r -> multipleFiles r = JUndef -> filename r = JStr s ->
  buildDownloadFiles w r mode st
  = (Ok ((if wants_video mode then [video_file r s] else [])
         ++ (if wants_cover mode && truthy (cover r)
             then [cover_file r (clock w (ticks st))] else [])),
     if wants_cover mode && truthy (cover r) then ticked st 1 else st).
Proof.
  intros (Hd & Hi & (s' & Hn & Hne) & Hs) Hm Hf.
  rewrite Hf in Hn. injection Hn as <-.
  unfold buildDownloadFiles, push_video, push_cover, push_images. run.
  rewrite Hd, Hm, Hf, Hs, andb_true_r.
  destruct s as [|c s]; [contradiction|]. cbn.
  destruct (wants_video mode), (wants_cover mode && truthy (cover r)); cbn;
    reflexivity.
Qed.

Lemma build_gallery_shaped r imgs mode st :
  gallery_shaped r -> images r = JArr imgs ->
  buildDownloadFiles w r mode st
  = if truthy (multipleFiles r)
    then (Ok (gallery w (ticks st) 0 imgs), ticked st (List.length imgs))
    else (Ok [], st).
Proof.
  intros (Hd & Hc & _ & _ & _) Hi.
  unfold buildDownloadFiles, push_video, push_cover, push_images. run.
  rewrite Hd, Hc, Hi, !andb_false_r. cbn.
  destruct (truthy (multipleFiles r)); [|reflexivity].
  cbn. apply each_image_runs.
Qed.

Lemma gallery_length tick index imgs :
  List.length (gallery w tick index imgs) = List.length imgs.
Proof.
  revert tick index. induction imgs; intros; cbn; [|rewrite IHimgs]; reflexivity.
Qed.

Lemma gallery_urls tick index imgs :
  map file_url (gallery w tick index imgs) = imgs.
Proof.
  revert tick index. induction imgs; intros; cbn; [|rewrite IHimgs]; reflexivity.
Qed.


Lemma build_routed r mode st :
  routed r -> exists fs st', buildDownloadFiles w r mode st = (Ok fs, st').
Proof.
  intros [[V Hm] | [G Hm]].
  - pose proof V as (_ & _ & (s & Hf & _) & _).
    rewrite (build_video_shaped mode st V Hm Hf). eauto.
  - pose proof G as (_ & _ & (imgs & Hi & _) & _).
    rewrite (build_gallery_shaped mode st G Hi).
    destruct (truthy (multipleFiles r)); eauto.
Qed.

(** C7: for every result the routers return that has both a download URL
    and a cover URL, [buildDownloadFiles] in mode [both] yields exactly two
    descriptors: first the video (the download URL, under the result's own
    file name and the video headers), then the cover (the cover URL, under
    the image headers). *)
Theorem both_yields_video_then_cover (linkType : LinkType) (url : jstring)
        (timeout : jsval) (st0 st1 st : State) (r : ParseResult) :
  route w linkType url timeout st0 = (Ok r, st1) ->
  truthy (downloadUrl r) = true ->
  truthy (cover r) = true ->
  exists s,
    filename r = JStr s
    /\ buildDownloadFiles w r (JStr (lit "both")) st
       = (Ok [video_file r s; cover_file r (clock w (ticks st))], ticked st 1).
Proof.
  intros H Hd Hc. apply route_result in H. destruct H as [_ [[V Hm] | [G _]]].
  - pose proof V as (_ & _ & (s & Hf & _) & _). exists s. split; [exact Hf|].
    rewrite (build_video_shaped (JStr (lit "both")) st V Hm Hf), Hc.
    reflexivity.
  - destruct G as (Hd' & _). rewrite Hd' in Hd. discriminate Hd.
Qed.


(** C10: the mode plays no part in the gallery rule: for every result the
    routers return marked multi-file with an image list,
    [buildDownloadFiles] yields one descriptor per image, in list order,
    whatever the requested mode is ([video], [cover], [both] or any other
    value). *)
Theorem gallery_in_every_mode (linkType : LinkType) (url : jstring)
        (timeout mode : jsval) (st0 st1 st : State) (r : ParseResult)
        (imgs : list jsval) :
  route w linkType url timeout st0 = (Ok r, st1) ->
  truthy (multipleFiles r) = true ->
  images r = JArr imgs ->
  buildDownloadFiles w r mode st
  = (Ok (gallery w (ticks st) 0 imgs), ticked st (List.length imgs))
  /\ map file_url (gallery w (ticks st) 0 imgs) = imgs.
Proof.
  intros H Hm Hi. apply route_result in H. destruct H as [_ [[V Hm'] | [G _]]].
  - rewrite Hm' in Hm. discriminate Hm.
  - rewrite (build_gallery_shaped mode st G Hi), Hm.
    split; [reflexivity | apply gallery_urls].
Qed.

(** C3, as amended: for every result the routers return whose cover is
    absent, [buildDownloadFiles] in mode [cover] does not throw and emits
    neither a video nor a cover descriptor; what it returns is empty unless
    the result is a gallery marked multi-file, and is then the descriptors
    of its images.  The builder makes no empty-result check. *)
Theorem cover_mode_without_cover (linkType : LinkType) (url : jstring)
        (timeout : jsval) (st0 st1 st : State) (r : ParseResult) :
  route w linkType url timeout st0 = (Ok r, st1) ->
  truthy (cover r) = false ->
  buildDownloadFiles w r (JStr (lit "cover")) st
  = if truthy (multipleFiles r)
    then (Ok (gallery w (ticks st) 0 (image_list r)),
          ticked st (List.length (image_list r)))
    else (Ok [], st).
Proof.
  intros H Hc. apply route_result in H. destruct H as [_ [[V Hm] | [G _]]].
  - pose proof V as (_ & _ & (s & Hf & _) & _).
    rewrite (build_video_shaped (JStr (lit "cover")) st V Hm Hf), Hc, Hm.
    reflexivity.
  - pose proof G as (_ & _ & (imgs & Hi & _) & _).
    rewrite (build_gallery_shaped (JStr (lit "cover")) st G Hi).
    unfold image_list. rewrite Hi. reflexivity.
Qed.

(** *** The default export *)

(** C1, as amended: when the redirect step and the router succeed, the
    result carries a download URL or an image list, the builder does not
    throw, and the entry point returns a manifest whose file list is
    exactly what the builder made, be it empty; no empty-result error is
    raised. *)
Theorem main_returns_builder_output (ctx : Ctx) (st st1 st2 : State)
        (finalUrl : jstring) (r : ParseResult) :
  resolveRedirect w (ctx_url ctx) (setting timeout ctx ||| JNum 30000) st
  = (Ok finalUrl, st1) ->
  route w (identifyLinkType (ctx_url ctx)) finalUrl
        (setting timeout ctx ||| JNum 30000) st1
  = (Ok r, st2) ->
  usable r = true
  /\ exists fs st3 m st4,
      buildDownloadFiles w r (setting downloadType ctx ||| JStr (lit "video"))
                         st2
      = (Ok fs, st3)
      /\ main w ctx st = (Ok m, st4)
      /\ files m = fs.
Proof.
  intros H1 H2. destruct (route_result _ _ _ _ H2) as [U R]. split; [exact U|].
  destruct (build_routed (setting downloadType ctx ||| JStr (lit "video"))
                         st2 R) as (fs & st3 & H3).
  exists fs, st3. unfold main, resolve. run.
  rewrite H1, H2, H3.
  destruct (truthy (title r)); eexists; eexists;
    (split; [reflexivity | split; reflexivity]).
Qed.

Lemma since_same st : since st st = [].
Proof. apply since_app. symmetry. apply app_nil_r. Qed.

Lemma since_logged st e : since st (logged st e) = [e].
Proof. apply since_app. reflexivity. Qed.

(** C5: for every URL classified as a user link, whatever the settings and
    the network, the entry point throws its error for unsupported user-page
    links (under the prefix of the pipeline) without invoking any adapter;
    the only request it may have made before is the HEAD request of the
    redirect step, when the URL also names the short-link host. *)
Theorem user_link_unsupported (ctx : Ctx) (st : State) :
  identifyLinkType (ctx_url ctx) = user ->
  exists st',
    main w ctx st
    = (Throw (Error (failure_prefix ++ message unsupported_user)), st')
    /\ invocations (since st st') = []
    /\ since st st'
       = if includes (ctx_url ctx) (lit "v.douyin.com")
         then [Fetched (head_request (ctx_url ctx))] else [].
Proof.
  intros Hu. unfold main, resolve. rewrite Hu.
  unfold bind at 1. unfold try_catch. rewrite resolveRedirect_run.
  destruct (includes (ctx_url ctx) (lit "v.douyin.com")); cbn;
    eexists; (split; [reflexivity|]).
  - rewrite since_logged. split; reflexivity.
  - rewrite since_same. split; reflexivity.
Qed.

End Properties.

(** ** Names of gallery images *)

Lemma utf16_ascii bs :
  Forall (fun b => (b <? 128) = true) bs -> utf16 bs = bs.
Proof.
  induction 1 as [|b r Hb _ IH]; cbn [utf16]; [|rewrite Hb, IH]; reflexivity.
Qed.

Lemma uint_plain d : Forall plain_char (bytes_of (NilEmpty.string_of_uint d)).
Proof.
  unfold bytes_of.
  induction d; cbn; constructor; auto; repeat split; reflexivity.
Qed.

Lemma of_Z_plain z : Forall plain_char (of_Z z).
Proof.
  assert (H : Forall plain_char
                (bytes_of (NilZero.string_of_int (Z.to_int z)))).
  { destruct (Z.to_int z) as [d | d]; cbn [NilZero.string_of_int].
    - destruct d; try apply uint_plain.
      cbn. constructor; [repeat split; reflexivity | constructor].
    - change (Forall plain_char
                (45 :: bytes_of (NilZero.string_of_uint d))).
      constructor; [repeat split; reflexivity|].
      destruct d; try apply uint_plain.
      cbn. constructor; [repeat split; reflexivity | constructor]. }
  unfold of_Z, lit. rewrite utf16_ascii; [exact H|].
  eapply Forall_impl; [|exact H]. intros c Hc. apply Hc.
Qed.

Lemma literal_plain (s : jstring) :
  forallb (fun c => (c <? 128) && negb (is_illegal c) && negb (is_space c)) s
  = true ->
  Forall plain_char s.
Proof.
  rewrite forallb_forall, Forall_forall. intros H c Hc.
  specialize (H c Hc). apply andb_prop in H. destruct H as [H H3].
  apply andb_prop in H. destruct H as [H1 H2].
  apply negb_true_iff in H2, H3. repeat split; assumption.
Qed.

(** The name of a gallery image is kept as built, unless it is longer than
    200 characters. *)
Lemma image_name_kept index t :
  (List.length (image_name index t) <= 200)%nat ->
  sanitizeFilename (image_name index t) = image_name index t.
Proof.
  intros Hlen. apply Sanitize.clean_fixed; [|exact Hlen].
  assert (H : Forall plain_char (image_name index t)).
  { unfold image_name.
    apply Forall_app; split; [apply literal_plain; reflexivity|].
    apply Forall_app; split; [apply of_Z_plain|].
    apply Forall_app; split; [apply literal_plain; reflexivity|].
    apply Forall_app; split; [apply of_Z_plain|].
    apply literal_plain; reflexivity. }
  eapply Forall_impl; [|exact H]. intros c Hc. split; apply Hc.
Qed.

(** ** The scenarios, run *)

Module Run.

Import Scenario.

Local Open Scope string_scope.

(** A short link in mode [both]: the video, then its cover. *)
Example short_link_both :
  exists m st',
    main video_world (with_mode "https://v.douyin.com/abcd1234/" "both") init
    = (Ok m, st')
    /\ map file_url (files m) = [str "https://cdn/x.mp4"; str "https://cdn/x.jpg"]
    /\ map file_headers (files m) = [getVideoHeaders; getImageHeaders]
    /\ extra_type (extra m) = str "video"
    /\ invocations (trace st') = [DouyinWTF].
Proof. vm_compute. do 2 eexists. repeat split. Qed.

(** Primary and first backup fail: one video file, from the second
    backup. *)
Example last_backup_answers :
  exists m st',
    main backup_world (plain "https://www.douyin.com/video/123") init
    = (Ok m, st')
    /\ map file_url (files m) = [str "https://cdn/y.mp4"]
    /\ invocations (trace st') = [DouyinWTF; JiexiTop; TenAPI].
Proof. vm_compute. do 2 eexists. repeat split. Qed.

(** The first backup answers: the second backup is not invoked. *)
Example first_backup_answers :
  exists r st',
    parseWithFallback second_world video_url default_timeout init = (Ok r, st')
    /\ downloadUrl r = str "https://cdn/z.mp4"
    /\ invocations (trace st') = [DouyinWTF; JiexiTop].
Proof. vm_compute. do 2 eexists. repeat split. Qed.

(** Every service down: the one aggregated error, under the prefix. *)
Example all_down :
  fst (main (world None Down Down Down)
            (plain "https://www.douyin.com/video/123") init)
  = Throw (Error (failure_prefix ++ message all_failed)%list).
Proof. vm_compute. reflexivity. Qed.

(** A gallery of three in the default mode: names with indices 1, 2, 3. *)
Example gallery_names :
  exists m st',
    main gallery_world (plain "https://www.douyin.com/note/456") init
    = (Ok m, st')
    /\ map file_name (files m)
       = [lit "image_1_1700000000001.jpg"; lit "image_2_1700000000002.jpg";
          lit "image_3_1700000000003.jpg"]
    /\ map file_url (files m) = three_images.
Proof. vm_compute. do 2 eexists. repeat split. Qed.

End Run.

(** ** The theorems at work on the scenarios *)

Lemma resolveRedirect_never_throws_witness :
  (includes Scenario.video_url (lit "v.douyin.com") = false
   /\ resolveRedirect Scenario.video_world Scenario.video_url
                      Scenario.default_timeout init
      = (Ok Scenario.video_url, init))
  /\ (includes Scenario.short_url (lit "v.douyin.com") = true
      /\ net Scenario.video_world (trace init)
             (head_request Scenario.short_url)
         = inr (Scenario.landing "https://www.douyin.com/video/123")
      /\ resolveRedirect Scenario.video_world Scenario.short_url
                         Scenario.default_timeout init
         = (Ok (response_url
                  (Scenario.landing "https://www.douyin.com/video/123")),
            logged init (Fetched (head_request Scenario.short_url))))
  /\ (includes Scenario.short_url (lit "v.douyin.com") = true
      /\ net Scenario.backup_world (trace init)
             (head_request Scenario.short_url)
         = inl Scenario.aborted
      /\ resolveRedirect Scenario.backup_world Scenario.short_url
                         Scenario.default_timeout init
         = (Ok Scenario.short_url,
            logged init (Fetched (head_request Scenario.short_url))))
  /\ (identifyLinkType Scenario.short_url = short
      /\ includes Scenario.short_url (lit "v.douyin.com") = true).
Proof.
  assert (C : identifyLinkType Scenario.short_url = short)
    by (vm_compute; reflexivity).
  assert (H : includes Scenario.video_url (lit "v.douyin.com") = false)
    by (vm_compute; reflexivity).
  assert (S : includes Scenario.short_url (lit "v.douyin.com") = true)
    by (vm_compute; reflexivity).
  assert (N1 : net Scenario.video_world (trace init)
                   (head_request Scenario.short_url)
               = inr (Scenario.landing "https://www.douyin.com/video/123"))
    by reflexivity.
  assert (N2 : net Scenario.backup_world (trace init)
                   (head_request Scenario.short_url)
               = inl Scenario.aborted)
    by reflexivity.
  split; [split; [exact H|]
         | split; [split; [exact S | split]
                  | split; [split; [exact S | split] | split; [exact C|]]]].
  - exact (proj1 (proj2 (@resolveRedirect_never_throws
                           Scenario.video_world Scenario.video_url
                           Scenario.default_timeout init)) H).
  - exact N1.
  - exact (proj1 (proj2 (proj2 (@resolveRedirect_never_throws
                                  Scenario.video_world Scenario.short_url
                                  Scenario.default_timeout init))) S _ N1).
  - exact N2.
  - exact (proj1 (proj2 (proj2 (proj2 (@resolveRedirect_never_throws
                                         Scenario.backup_world
                                         Scenario.short_url
                                         Scenario.default_timeout init))))
             S _ N2).
  - exact (proj2 (proj2 (proj2 (proj2 (@resolveRedirect_never_throws
                                         Scenario.video_world
                                         Scenario.short_url
                                         Scenario.default_timeout init))))
             C).
Defined.

Lemma user_link_unsupported_witness :
  identifyLinkType (ctx_url (Scenario.plain Scenario.user_url)) = user
  /\ exists st',
      main Scenario.video_world (Scenario.plain Scenario.user_url) init
      = (Throw (Error (failure_prefix ++ message unsupported_user)), st')
      /\ invocations (since init st') = []
      /\ since init st'
         = if includes (ctx_url (Scenario.plain Scenario.user_url))
                       (lit "v.douyin.com")
           then [Fetched (head_request
                            (ctx_url (Scenario.plain Scenario.user_url)))]
           else [].
Proof.
  assert (H : identifyLinkType (ctx_url (Scenario.plain Scenario.user_url))
              = user) by (vm_compute; reflexivity).
  split; [exact H|].
  exact (@user_link_unsupported Scenario.video_world
           (Scenario.plain Scenario.user_url) init H).
Defined.

Lemma both_yields_video_then_cover_witness :
  let r := Scenario.result_of Scenario.video_run in
  route Scenario.video_world video Scenario.video_url
        Scenario.default_timeout init
  = (Ok r, snd Scenario.video_run)
  /\ truthy (downloadUrl r) = true
  /\ truthy (cover r) = true
  /\ exists s,
      filename r = JStr s
      /\ buildDownloadFiles Scenario.video_world r (JStr (lit "both")) init
         = (Ok [video_file r s;
                cover_file r (clock Scenario.video_world (ticks init))],
            ticked init 1).
Proof.
  intros r.
  assert (H1 : route Scenario.video_world video Scenario.video_url
                     Scenario.default_timeout init
               = (Ok r, snd Scenario.video_run)) by (vm_compute; reflexivity).
  assert (H2 : truthy (downloadUrl r) = true) by (vm_compute; reflexivity).
  assert (H3 : truthy (cover r) = true) by (vm_compute; reflexivity).
  split; [exact H1|]. split; [exact H2|]. split; [exact H3|].
  exact (@both_yields_video_then_cover Scenario.video_world video
           Scenario.video_url Scenario.default_timeout init
           (snd Scenario.video_run) init r H1 H2 H3).
Defined.


Lemma gallery_in_every_mode_witness :
  let r := Scenario.result_of Scenario.gallery_run in
  let st := snd Scenario.gallery_run in
  route Scenario.gallery_world note Scenario.note_url
        Scenario.default_timeout init
  = (Ok r, st)
  /\ truthy (multipleFiles r) = true
  /\ images r = JArr Scenario.three_images
  /\ buildDownloadFiles Scenario.gallery_world r (Scenario.str "cover") st
     = (Ok (gallery Scenario.gallery_world (ticks st) 0 Scenario.three_images),
        ticked st (List.length Scenario.three_images))
  /\ map file_url
         (gallery Scenario.gallery_world (ticks st) 0 Scenario.three_images)
     = Scenario.three_images.
Proof.
  intros r st.
  assert (H1 : route Scenario.gallery_world note Scenario.note_url
                     Scenario.default_timeout init
               = (Ok r, st)) by (vm_compute; reflexivity).
  assert (H2 : truthy (multipleFiles r) = true) by (vm_compute; reflexivity).
  assert (H3 : images r = JArr Scenario.three_images)
    by (vm_compute; reflexivity).
  split; [exact H1|]. split; [exact H2|]. split; [exact H3|].
  exact (@gallery_in_every_mode Scenario.gallery_world note Scenario.note_url
           Scenario.default_timeout (Scenario.str "cover") init st st r
           Scenario.three_images H1 H2 H3).
Defined.

(** With no cover known, mode [cover] leaves the builder with nothing. *)
Lemma cover_mode_without_cover_witness :
  let r := Scenario.result_of Scenario.coverless_run in
  let st := snd Scenario.coverless_run in
  route Scenario.coverless_world video Scenario.video_url
        Scenario.default_timeout init
  = (Ok r, st)
  /\ truthy (cover r) = false
  /\ buildDownloadFiles Scenario.coverless_world r (JStr (lit "cover")) st
     = if truthy (multipleFiles r)
       then (Ok (gallery Scenario.coverless_world (ticks st) 0 (image_list r)),
             ticked st (List.length (image_list r)))
       else (Ok [], st).
Proof.
  intros r st.
  assert (H1 : route Scenario.coverless_world video Scenario.video_url
                     Scenario.default_timeout init
               = (Ok r, st)) by (vm_compute; reflexivity).
  assert (H2 : truthy (cover r) = false) by (vm_compute; reflexivity).
  split; [exact H1|]. split; [exact H2|].
  exact (@cover_mode_without_cover Scenario.coverless_world video
           Scenario.video_url Scenario.default_timeout init st st r H1 H2).
Defined.

(** C3, as stated, fails on a gallery: the note link of [gallery_world]
    resolves to a result without cover, marked multi-file, and mode [cover]
    yields its three image descriptors, not an empty sequence. *)
Lemma cover_mode_gallery_not_empty :
  let r := Scenario.result_of Scenario.gallery_run in
  let st := snd Scenario.gallery_run in
  route Scenario.gallery_world note Scenario.note_url
        Scenario.default_timeout init
  = (Ok r, st)
  /\ cover r = JUndef
  /\ exists fs st',
      buildDownloadFiles Scenario.gallery_world r (JStr (lit "cover")) st
      = (Ok fs, st')
      /\ map file_url fs = Scenario.three_images
      /\ fs <> [].
Proof.
  vm_compute. split; [reflexivity|]. split; [reflexivity|].
  do 2 eexists. split; [reflexivity|]. split; [reflexivity | discriminate].
Qed.

Lemma main_returns_builder_output_witness :
  let ctx := Scenario.with_mode "https://www.douyin.com/video/123" "cover" in
  let r := Scenario.result_of Scenario.coverless_run in
  let st2 := snd Scenario.coverless_run in
  resolveRedirect Scenario.coverless_world (ctx_url ctx)
                  (setting timeout ctx ||| JNum 30000) init
  = (Ok Scenario.video_url, init)
  /\ route Scenario.coverless_world (identifyLinkType (ctx_url ctx))
           Scenario.video_url (setting timeout ctx ||| JNum 30000) init
     = (Ok r, st2)
  /\ usable r = true
  /\ exists fs st3 m st4,
      buildDownloadFiles Scenario.coverless_world r
                         (setting downloadType ctx ||| JStr (lit "video")) st2
      = (Ok fs, st3)
      /\ main Scenario.coverless_world ctx init = (Ok m, st4)
      /\ files m = fs.
Proof.
  intros ctx r st2.
  assert (H1 : resolveRedirect Scenario.coverless_world (ctx_url ctx)
                               (setting timeout ctx ||| JNum 30000) init
               = (Ok Scenario.video_url, init)) by (vm_compute; reflexivity).
  assert (H2 : route Scenario.coverless_world (identifyLinkType (ctx_url ctx))
                     Scenario.video_url (setting timeout ctx ||| JNum 30000)
                     init
               = (Ok r, st2)) by (vm_compute; reflexivity).
  split; [exact H1|]. split; [exact H2|].
  exact (@main_returns_builder_output Scenario.coverless_world ctx init init
           st2 Scenario.video_url r H1 H2).
Defined.

(** C1, as stated, fails when the mode selects nothing: for a video link in
    mode [cover], with a primary service that knows the video but no cover,
    the entry point returns a manifest whose file list is empty. *)
Lemma empty_manifest_returned :
  exists m st',
    main Scenario.coverless_world
         (Scenario.with_mode "https://www.douyin.com/video/123" "cover") init
    = (Ok m, st')
    /\ files m = []
    /\ extra_cover (extra m) = JUndef.
Proof.
  vm_compute. do 2 eexists. split; [reflexivity|]. split; reflexivity.
Qed.

(** * Further properties *)

(** ** [sanitizeFilename] *)

(** X1: whatever the input, the result of [sanitizeFilename] has at most
    200 characters and none of them is one of the replaced characters. *)
Theorem sanitizeFilename_short_and_legal (s : jstring) :
  (List.length (sanitizeFilename s) <= 200)%nat
  /\ Forall legal (sanitizeFilename s).
Proof. split; [apply Sanitize.length_bound | apply Sanitize.all_legal]. Qed.

(** X2: whatever the input, the whitespace of the result is made of plain
    spaces, no two of them adjacent, and none at the start. *)
Theorem sanitizeFilename_single_spaced (s : jstring) :
  only_spaces (sanitizeFilename s)
  /\ no_double (sanitizeFilename s)
  /\ no_leading (sanitizeFilename s).
Proof.
  destruct (Sanitize.collapsed s) as (Hd & Ho & Hl). auto.
Qed.

Lemma rev_firstn_last (n : nat) (t : jstring) :
  (n < List.length t)%nat ->
  rev (firstn (S n) t) = nth n t 0 :: rev (firstn n t).
Proof.
  revert t. induction n as [|n IH]; intros [|c t] H; cbn in H; try lia.
  - reflexivity.
  - change (firstn (S (S n)) (c :: t)) with (c :: firstn (S n) t).
    change (firstn (S n) (c :: t)) with (c :: firstn n t).
    cbn [rev nth]. rewrite IH by lia. reflexivity.
Qed.

(** X3: the result ends in whitespace exactly when the cut falls right
    after a space: the cleaned name is longer than 200 characters and its
    200th character is whitespace. *)
Theorem sanitizeFilename_trailing_iff (s : jstring) :
  no_trailing (sanitizeFilename s)
  <-> ((List.length (trimmed s) <= 200)%nat
       \/ is_space (nth 199 (trimmed s) 0) = false).
Proof.
  unfold sanitizeFilename, substring0. fold (trimmed s).
  destruct (Nat.le_gt_cases (List.length (trimmed s)) 200) as [H | H].
  - split; [auto|]. intros _. rewrite firstn_all2 by exact H.
    apply Sanitize.trim_no_trailing.
  - unfold no_trailing. rewrite (@rev_firstn_last 199 (trimmed s)) by lia.
    cbn [no_leading]. split; [auto|]. intros [H' | H']; [lia | exact H'].
Qed.

Lemma collapse_from_fixed b s :
  only_spaces s -> no_double s -> (b = true -> no_leading s) ->
  collapse_from b s = s.
Proof.
  revert b. induction s as [|c r IH]; intros b Ho Hd Hl; [reflexivity|].
  cbn [collapse_from]. inversion Ho as [|? ? Hc Hr]; subst.
  assert (Hd' : no_double r).
  { intros l1 x y l2 E. apply (Hd (c :: l1) x y l2). cbn. now rewrite E. }
  destruct (is_space c) eqn:Ec.
  - destruct b; [cbn in Hl; rewrite (Hl eq_refl) in Ec; discriminate|].
    specialize (Hc eq_refl). subst c. f_equal. apply IH; auto.
    intros _. destruct r as [|d r']; [exact I|]. cbn.
    exact (Hd [] space d r' eq_refl Ec).
  - f_equal. apply IH; auto. discriminate.
Qed.

Lemma drop_space_fixed s : no_leading s -> drop_space s = s.
Proof. destruct s as [|c r]; cbn; [reflexivity|]. intros ->. reflexivity. Qed.

(** X4: the names [sanitizeFilename] returns unchanged are exactly those of
    at most 200 characters, free of the replaced characters, whose
    whitespace is single plain spaces, with none at either end. *)
Theorem sanitizeFilename_fixed_iff (s : jstring) :
  sanitizeFilename s = s
  <-> ((List.length s <= 200)%nat /\ Forall legal s
       /\ only_spaces s /\ no_double s /\ no_leading s /\ no_trailing s).
Proof.
  split.
  - intros E. pose proof (Sanitize.length_bound s) as Hlen.
    pose proof (Sanitize.all_legal s) as Hleg.
    destruct (Sanitize.collapsed s) as (Hd & Ho & Hl).
    assert (Ht : no_trailing (sanitizeFilename s)).
    { destruct (Nat.le_gt_cases (List.length (trimmed s)) 200) as [H | H].
      - apply Sanitize.no_trailing_uncut. exact H.
      - exfalso. unfold sanitizeFilename, substring0 in E. fold (trimmed s) in E.
        assert (L : List.length (firstn 200 (trimmed s)) = 200%nat)
          by (apply firstn_length_le; lia).
        rewrite E in L.
        destruct (Sanitize.collapsed s) as (_ & _ & Hl').
        (* the cleaned name is no longer than the name itself *)
        assert (B : (List.length (trimmed s) <= List.length s)%nat).
        { unfold trimmed, trim. rewrite length_rev.
          destruct (Sanitize.drop_space_suffix
                      (rev (drop_space (collapse_space (replace_illegal s)))))
            as [p2 E2].
          destruct (Sanitize.drop_space_suffix
                      (collapse_space (replace_illegal s))) as [p1 E1].
          apply (f_equal (@List.length _)) in E2, E1.
          rewrite length_app in E2, E1. rewrite length_rev in E2.
          assert (C : forall b t, (List.length (collapse_from b t)
                                   <= List.length t)%nat).
          { intros b t. revert b. induction t as [|c r IH]; intros b; cbn.
            - lia.
            - pose proof (IH true). pose proof (IH false).
              destruct (is_space c); [destruct b|]; cbn; lia. }
          specialize (C false (replace_illegal s)).
          unfold replace_illegal in C at 2. rewrite length_map in C.
          unfold collapse_space in *. lia. }
        lia. }
    rewrite E in *. auto 10.
  - intros (Hlen & Hleg & Ho & Hd & Hl & Ht).
    unfold sanitizeFilename, substring0, collapse_space.
    assert (E1 : replace_illegal s = s).
    { clear -Hleg. unfold replace_illegal.
      induction Hleg as [|c r Hc _ IH]; cbn; [reflexivity|].
      unfold legal in Hc. rewrite Hc, IH. reflexivity. }
    rewrite E1, (collapse_from_fixed (b := false)) by (auto; discriminate).
    unfold trim. rewrite (drop_space_fixed _ Hl), (drop_space_fixed _ Ht).
    rewrite rev_involutive. now apply firstn_all2.
Qed.

(** ** [identifyLinkType] *)

Lemma match_here_app re s post :
  match_here re s = true -> match_here re (s ++ post) = true.
Proof.
  revert s. induction re as [|[c | p] re IH]; intros s H.
  - reflexivity.
  - destruct s as [|d s]; cbn in *; [discriminate|].
    apply andb_prop in H. destruct H as [-> H]. now apply IH.
  - cbn [match_here] in *. induction s as [|d s IHs]; [discriminate|].
    cbn [app]. destruct (p d); cbn in *; [|discriminate].
    apply orb_prop in H. destruct H as [H | H].
    + now rewrite (IH _ H).
    + rewrite (IHs H). apply orb_true_r.
Qed.

Lemma test_app re pre s post :
  test re s = true -> test re (pre ++ s ++ post) = true.
Proof.
  intros H. induction pre as [|x pre IH].
  - cbn [app]. induction s as [|d s IHs].
    + cbn in H. rewrite orb_false_r in H.
      apply (match_here_app _ _ post) in H. cbn [app] in *.
      destruct post; cbn [test]; rewrite H; reflexivity.
    + cbn [test] in H. apply orb_prop in H. destruct H as [H | H].
      * apply (match_here_app _ _ post) in H. cbn [app test] in *.
        now rewrite H.
      * cbn [app test]. rewrite (IHs H). apply orb_true_r.
  - cbn [app test]. rewrite IH. apply orb_true_r.
Qed.

Lemma short_iff url :
  identifyLinkType url = short <-> test short_pattern url = true.
Proof.
  unfold identifyLinkType, patterns, scan. fold short_pattern.
  destruct (test short_pattern url); split; auto; try discriminate.
  repeat match goal with
         | |- context [if ?c then _ else _] => destruct c
         end; discriminate.
Qed.

(** X6: the short-link pattern is tried first and may match anywhere, so a
    URL classified [short] stays [short] whatever is put before or after
    it. *)
Theorem short_link_in_any_context (pre url post : jstring) :
  identifyLinkType url = short ->
  identifyLinkType (pre ++ url ++ post) = short.
Proof.
  rewrite !short_iff. apply test_app.
Qed.

Lemma match_here_infix a q re s :
  match_here (map Chr (a ++ q) ++ re) s = true -> includes s q = true.
Proof.
  revert s. induction a as [|c a IH]; intros s H.
  - cbn [app] in H. apply match_here_literal in H.
    destruct s; cbn [includes]; now rewrite H.
  - destruct s as [|d s]; cbn in H; [discriminate|].
    apply andb_prop in H. destruct H as [_ H]. apply IH in H.
    cbn [includes]. rewrite H. apply orb_true_r.
Qed.

Lemma test_infix a q re s :
  test (map Chr (a ++ q) ++ re) s = true -> includes s q = true.
Proof.
  induction s as [|d s IH]; cbn [test]; intros H; apply orb_prop in H;
    destruct H as [H | H]; try discriminate.
  - now apply match_here_infix in H.
  - now apply match_here_infix in H.
  - cbn [includes]. rewrite (IH H). apply orb_true_r.
Qed.

(** X7: every pattern names the host, so a URL in which [douyin.com] does
    not occur is classified [unknown]. *)
Theorem foreign_url_unknown (url : jstring) :
  includes url (lit "douyin.com") = false ->
  identifyLinkType url = unknown.
Proof.
  intros H.
  assert (M : forall a re, test (map Chr (a ++ lit "douyin.com") ++ re) url
                           = false).
  { intros a re. destruct (test _ url) eqn:E; [|reflexivity].
    apply test_infix in E. congruence. }
  unfold identifyLinkType, patterns, scan.
  rewrite (M (lit "v.") (Chr 47 :: [Plus is_word])
           : test (chars "v.douyin.com/" ++ [Plus is_word]) url = false).
  rewrite (M [] (map Chr (lit "/video/") ++ [Plus is_word])
           : test (chars "douyin.com/video/" ++ [Plus is_word]) url = false).
  rewrite (M [] (map Chr (lit "/note/") ++ [Plus is_word])
           : test (chars "douyin.com/note/" ++ [Plus is_word]) url = false).
  rewrite (M [] (map Chr (lit "/user/") ++ [Plus is_word_or_dash])
           : test (chars "douyin.com/user/" ++ [Plus is_word_or_dash]) url
             = false).
  rewrite (M [] (map Chr (lit "/discover"))
           : test (chars "douyin.com/discover") url = false).
  rewrite (M [] (map Chr (lit "/share/") ++ [Plus is_word])
           : test (chars "douyin.com/share/" ++ [Plus is_word]) url = false).
  rewrite (M (lit "ies") []
           : test (chars "iesdouyin.com") url = false).
  reflexivity.
Qed.

(** ** The adapters and the fallback loop *)

Ltac run :=
  unfold bind, try_catch, record, encodeURIComponent, fetch, read_json,
    deref, now, throw, ret in *.

Ltac cases :=
  repeat (match goal with
          | H : (_, _) = (_, _) |- _ => inversion H; subst; clear H
          | |- context [match ?x with _ => _ end] => destruct x eqn:?
          | H : context [match ?x with _ => _ end] |- _ => destruct x eqn:?
          end; cbn [fst snd trace ticks] in *).

Ltac absurd_case :=
  try discriminate;
  try (cbn in *; rewrite ?andb_false_r in *; discriminate).

Section Further.

Variable w : World.

Lemma adapter_trace a url timeout st :
  trace (snd (run_of w a url timeout st)) = trace st ++ adapter_events a url.
Proof.
  unfold adapter_events.
  destruct a; cbn [run_of endpoint];
    [unfold parseWithDouyinWTF | unfold parseWithJiexiTop
     | unfold parseWithTenAPI];
    run; cbn [fst snd trace ticks];
    destruct (Uri.encodeURIComponent url); cbn [fst snd trace ticks];
    cases; cbn [fst snd trace ticks]; rewrite <- ?app_assoc; reflexivity.
Qed.

Lemma truthy_or_default a b : truthy b = true -> truthy (a ||| b) = true.
Proof. intros H. unfold js_or. destruct (truthy a) eqn:E; assumption. Qed.

Lemma adapter_titled a url timeout st r st' :
  run_of w a url timeout st = (Ok r, st') -> titled r.
Proof.
  intros H.
  destruct a; cbn [run_of] in H;
    [unfold parseWithDouyinWTF in H | unfold parseWithJiexiTop in H
     | unfold parseWithTenAPI in H];
    run; cases; absurd_case;
    (split; [cbn [title]; repeat apply truthy_or_default; reflexivity
            | reflexivity]).
Qed.

Lemma backup_video a url timeout st r st' :
  a <> DouyinWTF ->
  run_of w a url timeout st = (Ok r, st') -> video_shaped r.
Proof.
  intros Ha H. destruct a; [contradiction | |]; cbn [run_of] in H;
    [unfold parseWithJiexiTop in H | unfold parseWithTenAPI in H];
    run; cbn in H; cases; absurd_case.
  all: unfold video_shaped, named; cbn;
    repeat match goal with
           | H : _ = _ |- _ => rewrite H
           end.
  all: repeat split; auto;
    try (eexists; split; [reflexivity | discriminate]).
  all: match goal with
       | H : _ && _ = true |- _ => apply andb_prop in H; destruct H as [_ H]
       end; assumption.
Qed.

Lemma fallback_run url timeout st :
  parseWithFallback w url timeout st
  = let first := run_of w DouyinWTF url timeout st in
    let second := run_of w JiexiTop url timeout (snd first) in
    let third := run_of w TenAPI url timeout (snd second) in
    if accepted first then first
    else if accepted second then second
    else if accepted third then third
    else (Throw all_failed, snd third).
Proof.
  unfold parseWithFallback, parsers. rewrite !try_parsers_step. reflexivity.
Qed.

Lemma accepted_ok (o : outcome ParseResult * State) :
  accepted o = true -> exists r st', o = (Ok r, st') /\ usable r = true.
Proof.
  destruct o as [[r | e] st']; unfold accepted; cbn; [eauto | discriminate].
Qed.

Lemma invocations_adapter a url : invocations (adapter_events a url) = [a].
Proof.
  unfold adapter_events. destruct (Uri.encodeURIComponent url); reflexivity.
Qed.

Lemma requests_app evs evs' :
  requests (evs ++ evs') = requests evs ++ requests evs'.
Proof. apply flat_map_app. Qed.

Lemma requests_adapter a url :
  requests (adapter_events a url)
  = match Uri.encodeURIComponent url with
    | Some encoded => [api_request (endpoint a) encoded]
    | None => []
    end.
Proof.
  unfold adapter_events. destruct (Uri.encodeURIComponent url); reflexivity.
Qed.

Lemma fallback_trace url timeout st :
  exists k evs,
    (1 <= k <= 3)%nat
    /\ trace (snd (parseWithFallback w url timeout st)) = trace st ++ evs
    /\ invocations evs = firstn k adapters
    /\ requests evs = firstn k (api_requests url).
Proof.
  rewrite fallback_run. cbv zeta.
  pose proof (adapter_trace DouyinWTF url timeout st) as T1.
  set (first := run_of w DouyinWTF url timeout st) in *.
  pose proof (adapter_trace JiexiTop url timeout (snd first)) as T2.
  set (second := run_of w JiexiTop url timeout (snd first)) in *.
  pose proof (adapter_trace TenAPI url timeout (snd second)) as T3.
  set (third := run_of w TenAPI url timeout (snd second)) in *.
  rewrite T1 in T2. rewrite T2 in T3. rewrite <- !app_assoc in T3.
  rewrite <- app_assoc in T2.
  destruct (accepted first); [exists 1%nat|destruct (accepted second);
    [exists 2%nat| exists 3%nat]]; eexists.
  - split; [lia|]. split; [exact T1|].
    rewrite invocations_adapter, requests_adapter.
    unfold api_requests. destruct (Uri.encodeURIComponent url); auto.
  - split; [lia|]. split; [exact T2|].
    rewrite invocations_app, requests_app, !invocations_adapter,
      !requests_adapter.
    unfold api_requests. destruct (Uri.encodeURIComponent url); auto.
  - split; [lia|]. split.
    + destruct (accepted third); exact T3.
    + rewrite !invocations_app, !requests_app, !invocations_adapter,
        !requests_adapter.
      unfold api_requests. destruct (Uri.encodeURIComponent url); auto.
Qed.

(** X8: [parseWithFallback] invokes the first [k] adapters of the list, for
    some [k] from 1 to 3, and its requests are the first [k] of the three
    requests for the URL, in the order of the adapters: one GET per adapter
    invoked, none repeated; when the URL cannot be encoded no request is
    made at all. *)
Theorem parseWithFallback_requests (url : jstring) (timeout : jsval)
        (st : State) :
  exists k,
    (1 <= k <= 3)%nat
    /\ invocations (since st (snd (parseWithFallback w url timeout st)))
       = firstn k adapters
    /\ requests (since st (snd (parseWithFallback w url timeout st)))
       = firstn k (api_requests url).
Proof.
  destruct (fallback_trace url timeout st) as (k & evs & Hk & T & I & R).
  exists k. rewrite (@since_app _ _ _ T). auto.
Qed.

(** X9: a gallery can only come from the primary service: when
    [parseWithFallback] returns a result that carries images, douyin.wtf is
    the only adapter that was invoked. *)
Theorem gallery_only_from_primary (url : jstring) (timeout : jsval)
        (st st' : State) (r : ParseResult) :
  parseWithFallback w url timeout st = (Ok r, st') ->
  images r <> JUndef ->
  invocations (since st st') = [DouyinWTF].
Proof.
  rewrite fallback_run. cbv zeta. intros H Hi.
  pose proof (adapter_trace DouyinWTF url timeout st) as T1.
  set (first := run_of w DouyinWTF url timeout st) in *.
  set (second := run_of w JiexiTop url timeout (snd first)) in *.
  set (third := run_of w TenAPI url timeout (snd second)) in *.
  destruct (accepted first).
  - rewrite H in T1. cbn [snd] in T1.
    rewrite (@since_app _ _ _ T1). apply invocations_adapter.
  - exfalso. apply Hi.
    destruct (accepted second).
    + assert (V : video_shaped r)
        by (apply (@backup_video JiexiTop url timeout (snd first) r st');
            [discriminate | exact H]).
      apply V.
    + destruct (accepted third); [|discriminate].
      assert (V : video_shaped r)
        by (apply (@backup_video TenAPI url timeout (snd second) r st');
            [discriminate | exact H]).
      apply V.
Qed.

Lemma fallback_titled url timeout st r st' :
  parseWithFallback w url timeout st = (Ok r, st') -> titled r.
Proof.
  rewrite fallback_run. cbv zeta. intros H.
  destruct (accepted _); [exact (adapter_titled _ _ _ _ H)|].
  destruct (accepted _); [exact (adapter_titled _ _ _ _ H)|].
  destruct (accepted _); [exact (adapter_titled _ _ _ _ H) | discriminate].
Qed.

(** X10: what [parseWithFallback] returns is a video or a gallery, never
    both: either a download URL that passes for true and no image list, or a
    non-empty array of images with neither download URL nor cover; in both
    cases with a title that passes for true and a non-empty string as file
    name. *)
Theorem resolved_video_or_gallery (url : jstring) (timeout : jsval)
        (st st' : State) (r : ParseResult) :
  parseWithFallback w url timeout st = (Ok r, st') ->
  truthy (title r) = true
  /\ (exists s, filename r = JStr s /\ s <> [])
  /\ ((truthy (downloadUrl r) = true /\ images r = JUndef)
      \/ (downloadUrl r = JUndef /\ cover r = JUndef
          /\ exists imgs, images r = JArr imgs /\ imgs <> [])).
Proof.
  intros H. destruct (fallback_titled _ _ _ H) as [Ht _].
  destruct (@parseWithFallback_result w _ _ _ _ _ H) as [_ [[V | G] _]].
  - destruct V as (Hd & Hi & Hn & _). auto.
  - destruct G as (Hd & Hc & Hi & Hn & _). auto 6.
Qed.

End Further.

(** ** The routers, the builder and the default export *)

Section Entry.

Variable w : World.

Lemma fallback_throws url timeout st e st' :
  parseWithFallback w url timeout st = (Throw e, st') -> e = all_failed.
Proof.
  rewrite fallback_run. cbv zeta.
  repeat match goal with
         | |- context [if accepted ?o then _ else _] =>
             let A := fresh "A" in
             destruct (accepted o) eqn:A;
             [apply accepted_ok in A; destruct A as (r & s & -> & _);
              discriminate|]
         end.
  intros [= <- _]. reflexivity.
Qed.

Lemma route_throws linkType url timeout st e st' :
  route w linkType url timeout st = (Throw e, st') ->
  (linkType = user /\ e = unsupported_user)
  \/ (linkType <> user /\ e = all_failed).
Proof.
  intros H.
  destruct linkType; cbn [route] in H;
    try (left; split; [reflexivity|]; injection H as <- _; reflexivity);
    right; (split; [discriminate|]);
    unfold parseVideoLink, parseNoteLink, bind, ret in H;
    destruct (parseWithFallback w url timeout st) as [[v | e'] st1] eqn:E;
    try (repeat match type of H with
                | context [if ?c then _ else _] => destruct c
                end; discriminate);
    injection H as <- _; exact (@fallback_throws _ _ _ _ _ E).
Qed.

Lemma route_state linkType url timeout st :
  linkType <> user ->
  snd (route w linkType url timeout st)
  = snd (parseWithFallback w url timeout st).
Proof.
  intros H.
  destruct linkType; try contradiction; cbn [route];
    unfold parseVideoLink, parseNoteLink, bind, ret;
    destruct (parseWithFallback w url timeout st) as [[v | e'] st1];
    try reflexivity;
    repeat match goal with
           | |- context [if ?c then _ else _] => destruct c
           end; reflexivity.
Qed.

Lemma route_labels linkType url timeout st r st' :
  route w linkType url timeout st = (Ok r, st') ->
  truthy (title r) = true /\ type r = type_of linkType.
Proof.
  intros H.
  destruct linkType; cbn [route] in H; try discriminate;
    unfold parseVideoLink, parseNoteLink, bind, ret in H;
    destruct (parseWithFallback w url timeout st) as [[v | e'] st1] eqn:E;
    try discriminate;
    destruct (@fallback_titled w _ _ _ _ _ E) as [Ht _];
    repeat match type of H with
           | context [if ?c then _ else _] => destruct c
           end;
    injection H as <- _; split; assumption || reflexivity.
Qed.

Lemma gallery_well_formed tick index imgs :
  Forall well_formed_file (gallery w tick index imgs).
Proof.
  revert tick index. induction imgs as [|x rest IH]; intros; cbn [gallery].
  - constructor.
  - constructor; [|apply IH]. unfold well_formed_file, image_file.
    cbn [file_name file_size file_headers].
    repeat split; auto using Sanitize.length_bound, Sanitize.all_legal.
Qed.

Lemma build_routed_files r mode st :
  routed r ->
  exists fs st',
    buildDownloadFiles w r mode st = (Ok fs, st')
    /\ trace st' = trace st
    /\ Forall well_formed_file fs.
Proof.
  intros [[V Hm] | [G Hm]].
  - pose proof V as (_ & _ & (s & Hf & _) & _).
    rewrite (@build_video_shaped w r s mode st V Hm Hf).
    do 2 eexists. split; [reflexivity|]. split.
    + destruct (wants_cover mode && truthy (cover r)); reflexivity.
    + apply Forall_app. split.
      * destruct (wants_video mode); constructor; [|constructor].
        unfold well_formed_file, video_file.
        cbn [file_name file_size file_headers].
        repeat split; auto using Sanitize.length_bound, Sanitize.all_legal.
      * destruct (wants_cover mode && truthy (cover r)); constructor;
          [|constructor].
        unfold well_formed_file, cover_file.
        cbn [file_name file_size file_headers].
        repeat split; auto using Sanitize.length_bound, Sanitize.all_legal.
  - pose proof G as (_ & _ & (imgs & Hi & _) & _).
    rewrite (@build_gallery_shaped w r imgs mode st G Hi).
    destruct (truthy (multipleFiles r)); do 2 eexists;
      (split; [reflexivity|]); split; try reflexivity.
    + apply gallery_well_formed.
    + constructor.
Qed.

(** How a run of the entry point decomposes. *)
Lemma main_run ctx st :
  exists finalUrl st1,
    resolveRedirect w (ctx_url ctx) (timeout_of ctx) st = (Ok finalUrl, st1)
    /\ trace st1 = trace st ++ map Fetched (redirect_requests (ctx_url ctx))
    /\ match route w (identifyLinkType (ctx_url ctx)) finalUrl
                   (timeout_of ctx) st1 with
       | (Throw e, st2) =>
           main w ctx st = (Throw (Error (failure_prefix ++ message e)), st2)
       | (Ok r, st2) =>
           exists fs st3,
             buildDownloadFiles w r (mode_of ctx) st2 = (Ok fs, st3)
             /\ trace st3 = trace st2
             /\ Forall well_formed_file fs
             /\ main w ctx st
                = (Ok {| name := title r;
                         files := fs;
                         extra :=
                           {| extra_cover := cover r;
                              extra_author := author r;
                              extra_duration := duration r;
                              platform := lit "douyin";
                              extra_type :=
                                type_of (identifyLinkType (ctx_url ctx)) |} |},
                   st3)
       end.
Proof.
  assert (E : exists finalUrl st1,
             resolveRedirect w (ctx_url ctx) (timeout_of ctx) st
             = (Ok finalUrl, st1)
             /\ trace st1
                = trace st ++ map Fetched (redirect_requests (ctx_url ctx))).
  { rewrite resolveRedirect_run. unfold redirect_requests.
    destruct (includes (ctx_url ctx) (lit "v.douyin.com"));
      do 2 eexists; (split; [reflexivity|]); cbn; [reflexivity|].
    symmetry. apply app_nil_r. }
  destruct E as (finalUrl & st1 & E & T). exists finalUrl, st1.
  split; [exact E|]. split; [exact T|].
  destruct (route w (identifyLinkType (ctx_url ctx)) finalUrl (timeout_of ctx)
                  st1) as [[r | e] st2] eqn:R.
  - destruct (@route_result w _ _ _ _ _ _ R) as [_ Hr].
    destruct (@route_labels _ _ _ _ _ _ R) as [Ht Hy].
    destruct (@build_routed_files r (mode_of ctx) st2 Hr)
      as (fs & st3 & B & T' & W).
    exists fs, st3. split; [exact B|]. split; [exact T'|]. split; [exact W|].
    unfold main, resolve. fold (timeout_of ctx). fold (mode_of ctx). run.
    rewrite E, R, B, Ht, Hy.
    destruct (identifyLinkType (ctx_url ctx)); reflexivity.
  - unfold main, resolve. fold (timeout_of ctx). fold (mode_of ctx). run.
    rewrite E, R. reflexivity.
Qed.

(** X5: a URL classified [short] always goes through the redirect step:
    [resolveRedirect] makes its one HEAD request for it. *)
Theorem short_link_redirected (url : jstring) (timeout : jsval) (st : State) :
  identifyLinkType url = short ->
  since st (snd (resolveRedirect w url timeout st))
  = [Fetched (head_request url)].
Proof.
  intros H. apply short_passes_redirect_test in H.
  rewrite resolveRedirect_run, H. apply since_logged.
Qed.

(** X11: the entry point fails in two ways only, whatever the network
    answers: on a user link, with the error for unsupported user pages; on
    any other link, with the one error for all services having failed.
    Both carry the prefix of the pipeline; what a service answered (an HTTP
    status, a malformed body) never reaches the caller. *)
Theorem main_failure_messages (ctx : Ctx) (st st' : State) (e : js_error) :
  main w ctx st = (Throw e, st') ->
  (identifyLinkType (ctx_url ctx) = user
   /\ e = Error (failure_prefix ++ message unsupported_user))
  \/ (identifyLinkType (ctx_url ctx) <> user
      /\ e = Error (failure_prefix ++ message all_failed)).
Proof.
  intros H. destruct (main_run ctx st) as (finalUrl & st1 & _ & _ & M).
  destruct (route w (identifyLinkType (ctx_url ctx)) finalUrl (timeout_of ctx)
                  st1) as [[r | e0] st2] eqn:R.
  - destruct M as (fs & st3 & _ & _ & _ & M). rewrite M in H. discriminate H.
  - rewrite M in H. injection H as <- _.
    destruct (@route_throws _ _ _ _ _ _ R) as [[Hu ->] | [Hu ->]]; auto.
Qed.

(** X12: a manifest the entry point returns is assembled from the routed
    result alone: its name is the result's title, which passes for true (the
    dated fallback name is never used), its files are what the builder made,
    its platform is [douyin] and its type is [note] for a note link and
    [video] for every other link. *)
Theorem main_success_manifest (ctx : Ctx) (st st' : State) (m : Manifest) :
  main w ctx st = (Ok m, st') ->
  exists finalUrl st1 r st2,
    resolveRedirect w (ctx_url ctx) (timeout_of ctx) st = (Ok finalUrl, st1)
    /\ route w (identifyLinkType (ctx_url ctx)) finalUrl (timeout_of ctx) st1
       = (Ok r, st2)
    /\ buildDownloadFiles w r (mode_of ctx) st2 = (Ok (files m), st')
    /\ name m = title r
    /\ truthy (name m) = true
    /\ extra m = {| extra_cover := cover r;
                    extra_author := author r;
                    extra_duration := duration r;
                    platform := lit "douyin";
                    extra_type := type_of (identifyLinkType (ctx_url ctx)) |}.
Proof.
  intros H. destruct (main_run ctx st) as (finalUrl & st1 & E & _ & M).
  destruct (route w (identifyLinkType (ctx_url ctx)) finalUrl (timeout_of ctx)
                  st1) as [[r | e0] st2] eqn:R.
  - destruct M as (fs & st3 & B & _ & _ & M). rewrite M in H.
    injection H as <- <-. exists finalUrl, st1, r, st2.
    destruct (@route_labels _ _ _ _ _ _ R) as [Ht _]. cbn. auto 10.
  - rewrite M in H. discriminate H.
Qed.

(** X13: every descriptor of a returned manifest has a name of at most 200
    characters without replaced characters, the size 0, and the headers of
    a video or of an image. *)
Theorem manifest_files_well_formed (ctx : Ctx) (st st' : State)
        (m : Manifest) :
  main w ctx st = (Ok m, st') -> Forall well_formed_file (files m).
Proof.
  intros H. destruct (main_run ctx st) as (finalUrl & st1 & _ & _ & M).
  destruct (route w (identifyLinkType (ctx_url ctx)) finalUrl (timeout_of ctx)
                  st1) as [[r | e0] st2].
  - destruct M as (fs & st3 & _ & _ & W & M). rewrite M in H.
    injection H as <- _. exact W.
  - rewrite M in H. discriminate H.
Qed.

Lemma requests_fetched l : requests (map Fetched l) = l.
Proof.
  induction l as [|x l IH]; [reflexivity|].
  change (x :: requests (map Fetched l) = x :: l). now rewrite IH.
Qed.

Lemma invocations_fetched l : invocations (map Fetched l) = [].
Proof.
  induction l as [|x l IH]; [reflexivity|].
  change (invocations (map Fetched l) = []). exact IH.
Qed.

(** X14: whatever happens, one run of the entry point makes at most four
    requests: the HEAD request of the redirect step if the URL names the
    short-link host, then the requests of the first [k] adapters for the
    resolved URL, in order, with [k] at most 3, and [k = 0] exactly for a
    user link.  Nothing is requested twice and no other address is
    contacted. *)
Theorem main_requests (ctx : Ctx) (st : State) :
  exists finalUrl st1 k,
    resolveRedirect w (ctx_url ctx) (timeout_of ctx) st = (Ok finalUrl, st1)
    /\ (k <= 3)%nat
    /\ (k = 0%nat <-> identifyLinkType (ctx_url ctx) = user)
    /\ invocations (since st (snd (main w ctx st))) = firstn k adapters
    /\ requests (since st (snd (main w ctx st)))
       = redirect_requests (ctx_url ctx) ++ firstn k (api_requests finalUrl).
Proof.
  destruct (main_run ctx st) as (finalUrl & st1 & E & T & M).
  exists finalUrl, st1.
  assert (S : trace (snd (main w ctx st))
              = trace (snd (route w (identifyLinkType (ctx_url ctx)) finalUrl
                                  (timeout_of ctx) st1))).
  { destruct (route w (identifyLinkType (ctx_url ctx)) finalUrl
                    (timeout_of ctx) st1) as [[r | e0] st2].
    - destruct M as (fs & st3 & _ & T' & _ & M). rewrite M. exact T'.
    - rewrite M. reflexivity. }
  destruct (LinkType_eq_dec (identifyLinkType (ctx_url ctx)) user) as [U | U].
  - exists 0%nat. rewrite U in S. cbn [route parseUserLink throw snd] in S.
    rewrite T in S. rewrite (@since_app _ _ _ S).
    rewrite requests_fetched, invocations_fetched, app_nil_r.
    repeat split; auto; lia.
  - rewrite (route_state _ _ _ U) in S.
    destruct (@fallback_trace w finalUrl (timeout_of ctx) st1)
      as (k & evs & Hk & Tk & I & R).
    exists k. rewrite Tk, T, <- app_assoc in S. rewrite (@since_app _ _ _ S).
    rewrite invocations_app, requests_app, requests_fetched,
      invocations_fetched, I, R.
    repeat split; auto; try lia. intros; contradiction.
Qed.

(** X15: only a note link gets the images of a gallery: when a link that
    is not classified [note] (a short link, for one) resolves to a result
    carrying images, the builder yields no descriptor at all, in every
    mode. *)
Theorem gallery_needs_note_link (linkType : LinkType) (url : jstring)
        (timeout mode : jsval) (st0 st1 st : State) (r : ParseResult) :
  route w linkType url timeout st0 = (Ok r, st1) ->
  linkType <> note ->
  images r <> JUndef ->
  buildDownloadFiles w r mode st = (Ok [], st).
Proof.
  intros H Hn Hi.
  assert (P : parseVideoLink w url timeout st0 = (Ok r, st1)).
  { destruct linkType; try exact H; [contradiction | discriminate H]. }
  destruct (@parseVideoLink_result w _ _ _ _ _ P) as (_ & [[V | G] Hm] & _).
  - destruct V as (_ & Hi' & _). contradiction.
  - pose proof G as (_ & _ & (imgs & Hi' & _) & _).
    rewrite (@build_gallery_shaped w r imgs mode st G Hi'), Hm. reflexivity.
Qed.

(** X16: for a result with a download URL, the mode alone decides what the
    builder yields: the video descriptor if the mode is [video] or [both],
    followed by the cover descriptor if the mode is [cover] or [both] and
    the result has a cover; any other mode yields nothing.  The video keeps
    the file name the adapter chose. *)
Theorem video_result_by_mode (linkType : LinkType) (url : jstring)
        (timeout : jsval) (st0 st1 : State) (r : ParseResult) :
  route w linkType url timeout st0 = (Ok r, st1) ->
  truthy (downloadUrl r) = true ->
  exists s,
    filename r = JStr s
    /\ forall mode st,
        buildDownloadFiles w r mode st
        = (Ok ((if wants_video mode then [video_file r s] else [])
               ++ (if wants_cover mode && truthy (cover r)
                   then [cover_file r (clock w (ticks st))] else [])),
           if wants_cover mode && truthy (cover r) then ticked st 1 else st).
Proof.
  intros H Hd.
  destruct (@route_result w _ _ _ _ _ _ H) as [_ [[V Hm] | [G _]]].
  - pose proof V as (_ & _ & (s & Hf & _) & _). exists s.
    split; [exact Hf|]. intros mode st.
    exact (@build_video_shaped w r s mode st V Hm Hf).
  - destruct G as (Hd' & _). rewrite Hd' in Hd. discriminate Hd.
Qed.

(** The entry point does not read [settings.apiEndpoint]: whatever value
    it is given, the run is the same. *)
Remark apiEndpoint_ignored (apiEndpoint : jsval) (ctx : Ctx) (st : State) :
  main w (with_endpoint apiEndpoint ctx) st = main w ctx st.
Proof. reflexivity. Qed.

End Entry.

(** ** The basic entry point *)

Lemma replace_illegal_fixed s : Forall legal s -> replace_illegal s = s.
Proof.
  unfold replace_illegal. induction 1 as [|c r Hc _ IH]; cbn; [reflexivity|].
  unfold legal in Hc. rewrite Hc, IH. reflexivity.
Qed.

(** X17: the [sanitizeFilename] of the basic module keeps the length of the
    name, leaves none of the replaced characters, returns a name without
    them unchanged, and so changes nothing when applied twice. *)
Theorem basic_sanitizeFilename (s : jstring) :
  List.length (Basic.sanitizeFilename s) = List.length s
  /\ Forall legal (Basic.sanitizeFilename s)
  /\ (Forall legal s -> Basic.sanitizeFilename s = s)
  /\ Basic.sanitizeFilename (Basic.sanitizeFilename s)
     = Basic.sanitizeFilename s.
Proof.
  unfold Basic.sanitizeFilename. split; [apply length_map|].
  split; [apply Sanitize.replace_illegal_legal|].
  split; [apply replace_illegal_fixed|].
  apply replace_illegal_fixed, Sanitize.replace_illegal_legal.
Qed.



Section BasicRun.

Variable w : World.
Variable statusText : Response -> jstring.
Variable numberText : Z -> jstring.



End BasicRun.

(** ** Names as built *)

Lemma double_digits d :
  (Decimal.nb_digits (Decimal.Little.double d) <= S (Decimal.nb_digits d))%nat
  /\ (Decimal.nb_digits (Decimal.Little.succ_double d)
      <= S (Decimal.nb_digits d))%nat.
Proof.
  induction d as [|d [IH1 IH2]|d [IH1 IH2]|d [IH1 IH2]|d [IH1 IH2]
                  |d [IH1 IH2]|d [IH1 IH2]|d [IH1 IH2]|d [IH1 IH2]
                  |d [IH1 IH2]|d [IH1 IH2]]; cbn; split; lia.
Qed.

Lemma little_digits p :
  (Decimal.nb_digits (Pos.to_little_uint p) <= Pos.size_nat p)%nat.
Proof.
  induction p as [p IH | p IH |]; cbn [Pos.to_little_uint Pos.size_nat].
  - destruct (double_digits (Pos.to_little_uint p)) as [_ H]. lia.
  - destruct (double_digits (Pos.to_little_uint p)) as [H _]. lia.
  - cbn. lia.
Qed.

Lemma size_nat_bound p n :
  (Z.pos p < 2 ^ Z.of_nat n)%Z -> (Pos.size_nat p <= n)%nat.
Proof.
  revert n. induction p as [p IH | p IH |]; intros [|n] H;
    cbn [Pos.size_nat]; try (cbn in H; lia).
  - rewrite Nat2Z.inj_succ, Z.pow_succ_r in H by lia.
    specialize (IH n). lia.
  - rewrite Nat2Z.inj_succ, Z.pow_succ_r in H by lia.
    specialize (IH n). lia.
Qed.

Lemma uint_length d :
  List.length (bytes_of (NilEmpty.string_of_uint d)) = Decimal.nb_digits d.
Proof. unfold bytes_of. induction d; cbn; auto. Qed.

Lemma nilzero_length d :
  (List.length (bytes_of (NilZero.string_of_uint d))
   <= Nat.max 1 (Decimal.nb_digits d))%nat.
Proof.
  destruct d; try (unfold NilZero.string_of_uint; rewrite uint_length; lia).
  cbn. lia.
Qed.

Lemma int_bytes_plain z :
  Forall plain_char (bytes_of (NilZero.string_of_int (Z.to_int z))).
Proof.
  destruct (Z.to_int z) as [d | d]; cbn [NilZero.string_of_int].
  - destruct d; try apply uint_plain.
    cbn. constructor; [repeat split; reflexivity | constructor].
  - change (Forall plain_char (45 :: bytes_of (NilZero.string_of_uint d))).
    constructor; [repeat split; reflexivity|].
    destruct d; try apply uint_plain.
    cbn. constructor; [repeat split; reflexivity | constructor].
Qed.

Lemma of_Z_bytes z : of_Z z = bytes_of (NilZero.string_of_int (Z.to_int z)).
Proof.
  unfold of_Z, lit. apply utf16_ascii.
  eapply Forall_impl; [|apply int_bytes_plain]. intros c Hc. apply Hc.
Qed.

(** The decimal rendering of a number below [2 ^ n] in absolute value has
    at most [n + 1] characters, sign included. *)
Lemma of_Z_length z n :
  (Z.abs z < 2 ^ Z.of_nat n)%Z -> (List.length (of_Z z) <= S n)%nat.
Proof.
  intros H. rewrite of_Z_bytes.
  assert (P : forall p, (Z.pos p < 2 ^ Z.of_nat n)%Z ->
                        (Nat.max 1 (Decimal.nb_digits (Pos.to_uint p)) <= Nat.max 1 n)%nat).
  { intros p Hp. unfold Pos.to_uint. rewrite DecimalFacts.nb_digits_rev.
    pose proof (little_digits p). pose proof (@size_nat_bound p n Hp). lia. }
  assert (M : (Nat.max 1 n <= S n)%nat) by (apply Nat.max_lub; lia).
  destruct z as [|p|p]; cbn [Z.to_int NilZero.string_of_int].
  - cbn. lia.
  - eapply Nat.le_trans; [apply nilzero_length|].
    eapply Nat.le_trans; [exact (P p H) | exact M].
  - change (bytes_of (String "-" (NilZero.string_of_uint (Pos.to_uint p))))
      with (45 :: bytes_of (NilZero.string_of_uint (Pos.to_uint p))).
    cbn [List.length]. apply le_n_S.
    eapply Nat.le_trans; [apply nilzero_length|].
    eapply Nat.le_trans; [exact (P p H)|].
    apply Nat.max_lub; [|lia].
    destruct n; [cbn in H; lia | lia].
Qed.

Lemma stamped_kept prefix t suffix :
  forallb (fun c => (c <? 128) && negb (is_illegal c) && negb (is_space c))
          (lit prefix ++ lit suffix) = true ->
  (List.length (lit prefix) + List.length (lit suffix) <= 135)%nat ->
  (Z.abs t < 2 ^ 64)%Z ->
  sanitizeFilename (lit prefix ++ of_Z t ++ lit suffix)
  = lit prefix ++ of_Z t ++ lit suffix.
Proof.
  intros H Hl Ht. pose proof (@of_Z_length t 64 Ht) as Lt.
  apply literal_plain in H. apply Forall_app in H. destruct H as [H1 H2].
  apply Sanitize.clean_fixed.
  - assert (P : Forall plain_char (lit prefix ++ of_Z t ++ lit suffix))
      by (repeat (apply Forall_app; split); auto using of_Z_plain).
    eapply Forall_impl; [|exact P]. intros c Hc. split; apply Hc.
  - rewrite !length_app. lia.
Qed.

Lemma image_name_as_built index t :
  (Z.of_nat index < 2 ^ 32)%Z ->
  (Z.abs t < 2 ^ 64)%Z ->
  sanitizeFilename (image_name index t) = image_name index t.
Proof.
  intros Hi Ht.
  pose proof (@of_Z_length t 64 Ht) as Lt.
  assert (Li : (List.length (of_Z (Z.of_nat index + 1)) <= 34)%nat)
    by (apply (@of_Z_length _ 33); cbn; lia).
  apply image_name_kept. unfold image_name. rewrite !length_app.
  change (List.length (lit "image_")) with 6%nat.
  change (List.length (lit "_")) with 1%nat.
  change (List.length (lit ".jpg")) with 4%nat. lia.
Qed.

(** X20: with as many images as an array can hold and a clock within
    64 bits (a time value is), the names of the cover and of the gallery
    images come out of [sanitizeFilename] exactly as built:
    [cover_<time>.jpg] and [image_<index + 1>_<time>.jpg]. *)
Theorem stamped_names_as_built (index : nat) (t : Z) :
  (Z.of_nat index < 2 ^ 32)%Z ->
  (Z.abs t < 2 ^ 64)%Z ->
  sanitizeFilename (image_name index t) = image_name index t
  /\ sanitizeFilename (lit "cover_" ++ of_Z t ++ lit ".jpg")
     = lit "cover_" ++ of_Z t ++ lit ".jpg".
Proof.
  intros Hi Ht. split; [now apply image_name_as_built|].
  apply stamped_kept; [reflexivity | cbn; lia | exact Ht].
Qed.

(** ** Distinct names *)

Lemma bytes_of_inj s s' : bytes_of s = bytes_of s' -> s = s'.
Proof.
  unfold bytes_of. revert s'.
  induction s as [|a s IH]; intros [|a' s'] H; cbn in H;
    try discriminate; [reflexivity|].
  injection H as Ha Hs. f_equal; [|now apply IH].
  rewrite <- (ascii_N_embedding a), <- (ascii_N_embedding a'), Ha.
  reflexivity.
Qed.

Lemma to_uint_nonnil p : Pos.to_uint p <> Decimal.Nil.
Proof.
  intros H. pose proof (DecimalPos.Unsigned.of_to p) as E.
  rewrite H in E. discriminate E.
Qed.

(** Different numbers are rendered differently. *)
Lemma of_Z_inj a b : of_Z a = of_Z b -> a = b.
Proof.
  rewrite !of_Z_bytes. intros H. apply bytes_of_inj in H.
  apply DecimalZ.to_int_inj.
  assert (N : forall z, Z.to_int z <> Decimal.Pos Decimal.Nil
                        /\ Z.to_int z <> Decimal.Neg Decimal.Nil).
  { intros [|p|p]; cbn; split; try discriminate;
      intros [= E]; exact (@to_uint_nonnil _ E). }
  pose proof (NilZero.isi _ (proj1 (N a)) (proj2 (N a))) as Ea.
  pose proof (NilZero.isi _ (proj1 (N b)) (proj2 (N b))) as Eb.
  rewrite H in Ea. congruence.
Qed.

Lemma uint_bytes_all (P : N -> Prop) d :
  (forall c, 48 <= c <= 57 -> P c) ->
  Forall P (bytes_of (NilEmpty.string_of_uint d)).
Proof.
  intros H. unfold bytes_of.
  induction d; cbn; constructor; auto; apply H; lia.
Qed.

Lemma of_Z_all (P : N -> Prop) z :
  P 45 -> (forall c, 48 <= c <= 57 -> P c) -> Forall P (of_Z z).
Proof.
  intros Hm Hd. rewrite of_Z_bytes.
  assert (U : forall d, Forall P (bytes_of (NilZero.string_of_uint d))).
  { intros d. destruct d; try (apply uint_bytes_all; exact Hd).
    cbn. constructor; [apply Hd; lia | constructor]. }
  destruct (Z.to_int z) as [d | d]; cbn [NilZero.string_of_int]; [apply U|].
  change (Forall P (45 :: bytes_of (NilZero.string_of_uint d))).
  constructor; [exact Hm | apply U].
Qed.

Lemma of_Z_no_underscore z : Forall (fun c => c <> 95) (of_Z z).
Proof. apply of_Z_all; intros; lia. Qed.

Lemma split_at_underscore a b x y :
  Forall (fun c => c <> 95) a -> Forall (fun c => c <> 95) b ->
  a ++ 95 :: x = b ++ 95 :: y -> a = b.
Proof.
  intros Ha. revert b. induction Ha as [|c a Hc _ IH]; intros b Hb E.
  - destruct Hb as [|d b Hd _]; [reflexivity|]. cbn in E.
    injection E as E _. congruence.
  - destruct Hb as [|d b Hd Hb]; cbn in E.
    + injection E as E _. congruence.
    + injection E as -> E. f_equal. now apply IH.
Qed.

Lemma image_name_inj i t j t' : image_name i t = image_name j t' -> i = j.
Proof.
  unfold image_name. intros H. apply app_inv_head in H.
  change (lit "_") with [95] in H. cbn [app] in H.
  apply split_at_underscore in H; auto using of_Z_no_underscore.
  apply of_Z_inj in H. lia.
Qed.

Lemma prefix_differs a b : lit "douyin_" ++ a <> lit "cover_" ++ b.
Proof.
  change (lit "douyin_") with (100 :: lit "ouyin_").
  change (lit "cover_") with (99 :: lit "over_").
  cbn [app]. intros E. discriminate E.
Qed.

Section Names.

Variable w : World.

(** The clock gives time values. *)
Hypothesis clock_bounded : forall n, (Z.abs (clock w n) < 2 ^ 64)%Z.

Lemma gallery_name_form tick index imgs name :
  In name (map file_name (gallery w tick index imgs)) ->
  exists j n,
    (index <= j < index + List.length imgs)%nat
    /\ name = sanitizeFilename (image_name j (clock w n)).
Proof.
  revert tick index. induction imgs as [|x rest IH]; intros tick index H;
    cbn [gallery map In] in H; [contradiction|].
  destruct H as [<- | H].
  - exists index, tick. cbn [List.length]. split; [lia | reflexivity].
  - destruct (IH _ _ H) as (j & n & Hj & ->). exists j, n.
    cbn [List.length]. split; [lia | reflexivity].
Qed.

Lemma gallery_distinct tick index imgs :
  (Z.of_nat (index + List.length imgs) <= 2 ^ 32)%Z ->
  NoDup (map file_name (gallery w tick index imgs)).
Proof.
  revert tick index. induction imgs as [|x rest IH]; intros tick index H;
    cbn [gallery map]; [constructor|].
  cbn [List.length] in H. constructor.
  - intros I. apply gallery_name_form in I. destruct I as (j & n & Hj & E).
    cbn [image_file file_name] in E.
    rewrite !image_name_as_built in E by (auto; lia).
    apply image_name_inj in E. lia.
  - apply IH. lia.
Qed.

(** X21: under a clock of time values, the descriptors of a gallery of
    fewer than 2^32 images all have different names. *)
Theorem gallery_names_distinct (tick : nat) (imgs : list jsval) :
  (Z.of_nat (List.length imgs) < 2 ^ 32)%Z ->
  NoDup (map file_name (gallery w tick 0 imgs)).
Proof. intros H. apply gallery_distinct. cbn [Nat.add]. lia. Qed.

(** The file name an adapter chooses. *)
Lemma adapter_filename a url timeout st r st' :
  run_of w a url timeout st = (Ok r, st') ->
  exists n,
    filename r = stamped "douyin_" (clock w n) ".mp4"
    \/ filename r = stamped "douyin_note_" (clock w n) "".
Proof.
  intros H.
  destruct a; cbn [run_of] in H;
    [unfold parseWithDouyinWTF in H | unfold parseWithJiexiTop in H
     | unfold parseWithTenAPI in H];
    run; cases; absurd_case; eexists; cbn [filename]; eauto.
Qed.

Lemma route_filename linkType url timeout st r st' :
  route w linkType url timeout st = (Ok r, st') ->
  exists n,
    filename r = stamped "douyin_" (clock w n) ".mp4"
    \/ filename r = stamped "douyin_note_" (clock w n) "".
Proof.
  intros H.
  assert (F : forall v st1, parseWithFallback w url timeout st = (Ok v, st1) ->
                            exists n,
                              filename v = stamped "douyin_" (clock w n) ".mp4"
                              \/ filename v
                                 = stamped "douyin_note_" (clock w n) "").
  { intros v st1. rewrite fallback_run. cbv zeta. intros E.
    destruct (accepted _); [exact (@adapter_filename _ _ _ _ _ _ E)|].
    destruct (accepted _); [exact (@adapter_filename _ _ _ _ _ _ E)|].
    destruct (accepted _); [exact (@adapter_filename _ _ _ _ _ _ E)
                           | discriminate]. }
  destruct linkType; cbn [route] in H; try discriminate;
    unfold parseVideoLink, parseNoteLink, bind, ret in H;
    destruct (parseWithFallback w url timeout st) as [[v | e'] st1] eqn:E;
    try discriminate;
    destruct (F _ _ eq_refl) as [n Hn];
    repeat match type of H with
           | context [if ?c then _ else _] => destruct c
           end;
    injection H as <- _; exists n; exact Hn.
Qed.

Lemma video_cover_differ r s t n :
  JStr s = stamped "douyin_" (clock w n) ".mp4"
  \/ JStr s = stamped "douyin_note_" (clock w n) "" ->
  file_name (video_file r s) <> file_name (cover_file r (clock w t)).
Proof.
  unfold stamped, video_file, cover_file. cbn [file_name].
  intros [E | E];
    apply (f_equal (fun v => match v with JStr x => x | _ => [] end)) in E;
    cbv beta iota in E; subst s;
    rewrite !stamped_kept
      by (reflexivity || (cbn; lia) || apply clock_bounded).
  - apply prefix_differs.
  - change (lit "douyin_note_") with (lit "douyin_" ++ lit "note_").
    rewrite <- app_assoc. apply prefix_differs.
Qed.

(** X22: under a clock of time values, no two descriptors of a returned
    manifest have the same name (for fewer than 2^32 files). *)
Theorem manifest_names_distinct (ctx : Ctx) (st st' : State) (m : Manifest) :
  main w ctx st = (Ok m, st') ->
  (Z.of_nat (List.length (files m)) < 2 ^ 32)%Z ->
  NoDup (map file_name (files m)).
Proof.
  intros H Hlen. destruct (main_run w ctx st) as (finalUrl & st1 & _ & _ & M).
  destruct (route w (identifyLinkType (ctx_url ctx)) finalUrl (timeout_of ctx)
                  st1) as [[r | e0] st2] eqn:R;
    [|rewrite M in H; discriminate H].
  destruct M as (fs & st3 & B & _ & _ & M). rewrite M in H.
  injection H as <- _. cbn [files] in *.
  destruct (@route_result w _ _ _ _ _ _ R) as [_ [[V Hm] | [G _]]].
  - pose proof V as (_ & _ & (s & Hf & _) & _).
    rewrite (@build_video_shaped w r s (mode_of ctx) st2 V Hm Hf) in B.
    injection B as <- _.
    destruct (@route_filename _ _ _ _ _ _ R) as [n Hn]. rewrite Hf in Hn.
    pose proof (@video_cover_differ r s (ticks st2) n Hn) as D.
    destruct (wants_video (mode_of ctx)),
             (wants_cover (mode_of ctx) && truthy (cover r));
      cbn [app map]; repeat constructor; cbn [In]; intuition congruence.
  - pose proof G as (_ & _ & (imgs & Hi & _) & _).
    rewrite (@build_gallery_shaped w r imgs (mode_of ctx) st2 G Hi) in B.
    destruct (truthy (multipleFiles r)); injection B as <- _;
      [|constructor].
    apply gallery_names_distinct. rewrite gallery_length in Hlen. exact Hlen.
Qed.

End Names.

(** ** The further properties at work *)

Lemma short_link_redirected_witness :
  identifyLinkType Scenario.short_url = short
  /\ since init (snd (resolveRedirect Scenario.video_world Scenario.short_url
                                      Scenario.default_timeout init))
     = [Fetched (head_request Scenario.short_url)].
Proof.
  assert (H : identifyLinkType Scenario.short_url = short)
    by (vm_compute; reflexivity).
  split; [exact H|].
  exact (@short_link_redirected Scenario.video_world Scenario.short_url
           Scenario.default_timeout init H).
Defined.

Lemma short_link_in_any_context_witness :
  identifyLinkType (lit "v.douyin.com/abcd1234") = short
  /\ identifyLinkType (lit "https://" ++ lit "v.douyin.com/abcd1234"
                       ++ lit "/?from=douyin.com/user/x")
     = short.
Proof.
  assert (H : identifyLinkType (lit "v.douyin.com/abcd1234") = short)
    by (vm_compute; reflexivity).
  split; [exact H|].
  exact (@short_link_in_any_context (lit "https://")
           (lit "v.douyin.com/abcd1234") (lit "/?from=douyin.com/user/x") H).
Defined.

Lemma foreign_url_unknown_witness :
  includes (lit "https://example.org/video/123") (lit "douyin.com") = false
  /\ identifyLinkType (lit "https://example.org/video/123") = unknown.
Proof.
  assert (H : includes (lit "https://example.org/video/123")
                       (lit "douyin.com") = false)
    by (vm_compute; reflexivity).
  split; [exact H|].
  exact (@foreign_url_unknown (lit "https://example.org/video/123") H).
Defined.

Lemma gallery_only_from_primary_witness :
  let r := Scenario.result_of Cases.gallery_fallback in
  let st' := snd Cases.gallery_fallback in
  parseWithFallback Scenario.gallery_world Scenario.note_url
                    Scenario.default_timeout init
  = (Ok r, st')
  /\ images r <> JUndef
  /\ invocations (since init st') = [DouyinWTF].
Proof.
  intros r st'.
  assert (H1 : parseWithFallback Scenario.gallery_world Scenario.note_url
                                 Scenario.default_timeout init
               = (Ok r, st')) by (vm_compute; reflexivity).
  assert (H2 : images r <> JUndef) by (vm_compute; discriminate).
  split; [exact H1|]. split; [exact H2|].
  exact (@gallery_only_from_primary Scenario.gallery_world Scenario.note_url
           Scenario.default_timeout init st' r H1 H2).
Defined.

Lemma resolved_video_or_gallery_witness :
  let r := Scenario.result_of Cases.gallery_fallback in
  let st' := snd Cases.gallery_fallback in
  parseWithFallback Scenario.gallery_world Scenario.note_url
                    Scenario.default_timeout init
  = (Ok r, st')
  /\ truthy (title r) = true
  /\ (exists s, filename r = JStr s /\ s <> [])
  /\ ((truthy (downloadUrl r) = true /\ images r = JUndef)
      \/ (downloadUrl r = JUndef /\ cover r = JUndef
          /\ exists imgs, images r = JArr imgs /\ imgs <> [])).
Proof.
  intros r st'.
  assert (H1 : parseWithFallback Scenario.gallery_world Scenario.note_url
                                 Scenario.default_timeout init
               = (Ok r, st')) by (vm_compute; reflexivity).
  split; [exact H1|].
  exact (@resolved_video_or_gallery Scenario.gallery_world Scenario.note_url
           Scenario.default_timeout init st' r H1).
Defined.

Lemma main_failure_messages_witness :
  let run := main Cases.down_world Cases.video_ctx init in
  main Cases.down_world Cases.video_ctx init
  = (Throw (Error (failure_prefix ++ message all_failed)), snd run)
  /\ ((identifyLinkType (ctx_url Cases.video_ctx) = user
       /\ Error (failure_prefix ++ message all_failed)
          = Error (failure_prefix ++ message unsupported_user))
      \/ (identifyLinkType (ctx_url Cases.video_ctx) <> user
          /\ Error (failure_prefix ++ message all_failed)
             = Error (failure_prefix ++ message all_failed))).
Proof.
  intros run.
  assert (H : main Cases.down_world Cases.video_ctx init
              = (Throw (Error (failure_prefix ++ message all_failed)),
                 snd run)) by (vm_compute; reflexivity).
  split; [exact H|].
  exact (@main_failure_messages Cases.down_world Cases.video_ctx init
           (snd run) (Error (failure_prefix ++ message all_failed)) H).
Defined.

Lemma main_success_manifest_witness :
  let m := Cases.manifest_of Cases.video_main in
  let st' := snd Cases.video_main in
  let w := Cases.steady Scenario.video_world in
  main w Cases.video_ctx init = (Ok m, st')
  /\ exists finalUrl st1 r st2,
      resolveRedirect w (ctx_url Cases.video_ctx)
                      (timeout_of Cases.video_ctx) init
      = (Ok finalUrl, st1)
      /\ route w (identifyLinkType (ctx_url Cases.video_ctx)) finalUrl
               (timeout_of Cases.video_ctx) st1
         = (Ok r, st2)
      /\ buildDownloadFiles w r (mode_of Cases.video_ctx) st2
         = (Ok (files m), st')
      /\ name m = title r
      /\ truthy (name m) = true
      /\ extra m
         = {| extra_cover := cover r;
              extra_author := author r;
              extra_duration := duration r;
              platform := lit "douyin";
              extra_type :=
                type_of (identifyLinkType (ctx_url Cases.video_ctx)) |}.
Proof.
  intros m st' w.
  assert (H : main w Cases.video_ctx init = (Ok m, st'))
    by (vm_compute; reflexivity).
  split; [exact H|].
  exact (@main_success_manifest w Cases.video_ctx init st' m H).
Defined.

Lemma manifest_files_well_formed_witness :
  let m := Cases.manifest_of Cases.video_main in
  let st' := snd Cases.video_main in
  let w := Cases.steady Scenario.video_world in
  main w Cases.video_ctx init = (Ok m, st')
  /\ Forall well_formed_file (files m).
Proof.
  intros m st' w.
  assert (H : main w Cases.video_ctx init = (Ok m, st'))
    by (vm_compute; reflexivity).
  split; [exact H|].
  exact (@manifest_files_well_formed w Cases.video_ctx init st' m H).
Defined.

Lemma gallery_needs_note_link_witness :
  let r := Scenario.result_of Cases.short_gallery_run in
  let st1 := snd Cases.short_gallery_run in
  route Cases.note_behind_short short (lit "https://www.douyin.com/note/456")
        Scenario.default_timeout init
  = (Ok r, st1)
  /\ short <> note
  /\ images r <> JUndef
  /\ buildDownloadFiles Cases.note_behind_short r (Scenario.str "both") st1
     = (Ok [], st1).
Proof.
  intros r st1.
  assert (H1 : route Cases.note_behind_short short
                     (lit "https://www.douyin.com/note/456")
                     Scenario.default_timeout init
               = (Ok r, st1)) by (vm_compute; reflexivity).
  assert (H2 : short <> note) by discriminate.
  assert (H3 : images r <> JUndef) by (vm_compute; discriminate).
  split; [exact H1|]. split; [exact H2|]. split; [exact H3|].
  exact (@gallery_needs_note_link Cases.note_behind_short short
           (lit "https://www.douyin.com/note/456") Scenario.default_timeout
           (Scenario.str "both") init st1 st1 r H1 H2 H3).
Defined.

Lemma video_result_by_mode_witness :
  let r := Scenario.result_of Scenario.video_run in
  let w := Scenario.video_world in
  route w video Scenario.video_url Scenario.default_timeout init
  = (Ok r, snd Scenario.video_run)
  /\ truthy (downloadUrl r) = true
  /\ exists s,
      filename r = JStr s
      /\ forall mode st,
          buildDownloadFiles w r mode st
          = (Ok ((if wants_video mode then [video_file r s] else [])
                 ++ (if wants_cover mode && truthy (cover r)
                     then [cover_file r (clock w (ticks st))] else [])),
             if wants_cover mode && truthy (cover r) then ticked st 1 else st).
Proof.
  intros r w.
  assert (H1 : route w video Scenario.video_url Scenario.default_timeout init
               = (Ok r, snd Scenario.video_run)) by (vm_compute; reflexivity).
  assert (H2 : truthy (downloadUrl r) = true) by (vm_compute; reflexivity).
  split; [exact H1|]. split; [exact H2|].
  exact (@video_result_by_mode w video Scenario.video_url
           Scenario.default_timeout init (snd Scenario.video_run) r H1 H2).
Defined.


Lemma stamped_names_as_built_witness :
  (Z.of_nat 2 < 2 ^ 32)%Z
  /\ (Z.abs 1700000000000 < 2 ^ 64)%Z
  /\ sanitizeFilename (image_name 2 1700000000000)
     = image_name 2 1700000000000
  /\ sanitizeFilename (lit "cover_" ++ of_Z 1700000000000 ++ lit ".jpg")
     = lit "cover_" ++ of_Z 1700000000000 ++ lit ".jpg".
Proof.
  assert (H1 : (Z.of_nat 2 < 2 ^ 32)%Z) by (vm_compute; reflexivity).
  assert (H2 : (Z.abs 1700000000000 < 2 ^ 64)%Z) by (vm_compute; reflexivity).
  split; [exact H1|]. split; [exact H2|].
  exact (@stamped_names_as_built 2 1700000000000%Z H1 H2).
Defined.

Lemma steady_clock (w : World) (n : nat) :
  (Z.abs (clock (Cases.steady w) n) < 2 ^ 64)%Z.
Proof. vm_compute. reflexivity. Defined.

Lemma gallery_names_distinct_witness :
  (forall n, (Z.abs (clock (Cases.steady Scenario.gallery_world) n)
              < 2 ^ 64)%Z)
  /\ (Z.of_nat (List.length Scenario.three_images) < 2 ^ 32)%Z
  /\ NoDup (map file_name
                (gallery (Cases.steady Scenario.gallery_world) 1 0
                         Scenario.three_images)).
Proof.
  assert (H2 : (Z.of_nat (List.length Scenario.three_images) < 2 ^ 32)%Z)
    by (vm_compute; reflexivity).
  split; [exact (steady_clock Scenario.gallery_world)|]. split; [exact H2|].
  exact (@gallery_names_distinct (Cases.steady Scenario.gallery_world)
           (steady_clock Scenario.gallery_world) 1 Scenario.three_images H2).
Defined.

Lemma manifest_names_distinct_witness :
  let m := Cases.manifest_of Cases.video_main in
  let st' := snd Cases.video_main in
  let w := Cases.steady Scenario.video_world in
  (forall n, (Z.abs (clock w n) < 2 ^ 64)%Z)
  /\ main w Cases.video_ctx init = (Ok m, st')
  /\ (Z.of_nat (List.length (files m)) < 2 ^ 32)%Z
  /\ NoDup (map file_name (files m)).
Proof.
  intros m st' w.
  assert (H : main w Cases.video_ctx init = (Ok m, st'))
    by (vm_compute; reflexivity).
  assert (H2 : (Z.of_nat (List.length (files m)) < 2 ^ 32)%Z)
    by (vm_compute; reflexivity).
  split; [exact (steady_clock Scenario.video_world)|].
  split; [exact H|]. split; [exact H2|].
  exact (@manifest_names_distinct w (steady_clock Scenario.video_world)
           Cases.video_ctx init st' m H H2).
Defined.

(** C6, as stated, fails on a URL that is no short link but mentions the
    host: a user page with [from=v.douyin.com] in its query is classified
    [user] and does not match the short-link pattern, yet [resolveRedirect]
    sends its HEAD request and, the request being redirected, returns
    another URL. *)
Lemma mentioned_host_is_fetched :
  identifyLinkType Cases.mention_url = user
  /\ test short_pattern Cases.mention_url = false
  /\ resolveRedirect Scenario.video_world Cases.mention_url
                     Scenario.default_timeout init
     = (Ok Scenario.video_url,
        logged init (Fetched (head_request Cases.mention_url)))
  /\ Scenario.video_url <> Cases.mention_url.
Proof.
  split; [vm_compute; reflexivity|]. split; [vm_compute; reflexivity|].
  split; [vm_compute; reflexivity | vm_compute; discriminate].
Qed.

(** An endpoint given as a number is written as the engine writes it:
    in digits when it is a safe integer, by the engine's own text
    otherwise. *)
Example endpoint_as_number :
  req_url (Basic.api_request Cases.number_text (JNum 8080) [])
  = lit "8080/api?url="
  /\ req_url (Basic.api_request Cases.number_text (JNum (10 ^ 21)) [])
     = lit "1e+21/api?url="
  /\ req_url (Basic.api_request Cases.number_text JUndef [])
     = lit "https://api.douyin.wtf/api?url=".
Proof. repeat split; vm_compute; reflexivity. Qed.
